(** * Smart-QGEN: browser-side upload and configuration logic

    A shallow embedding of [app/static/js/configure.js] and
    [NEP_QGEN/app/static/js/upload.js].  Module-level variables and the
    DOM handles the scripts read or write become fields of an explicit
    state record; [showNotification] and [fetch] become logs carried by
    that state; promise callbacks become functions on the state that are
    run when the request settles. *)

From Stdlib Require Import ZArith List String Ascii Lia Bool.
From Stdlib Require Import DecimalString.
From Stdlib Require Import QArith Lqa.
From stdpp Require Import base list strings.

Import ListNotations.
Local Open Scope string_scope.
Local Open Scope list_scope.
Local Open Scope Z_scope.

(** ** The fragment of JavaScript values the scripts compute with *)

Module JS.

(** Numbers.  Every number the scripts handle is produced by
    [parseInt], by a literal, or by [+], [-], [*] and [Math.abs] on
    such values: it is a double whose value is an integer, an infinity,
    or [NaN].  [Num z] is the double of value [z]; the two zeros are
    one [Num 0], which nothing the scripts do tells apart. *)
Inductive number : Type :=
| Num (z : Z)
| NaN
| Infinity
| NegInfinity.

(** The double nearest to the integer [z], ties to the even
    significand: integers below [2^53] in magnitude are doubles; above,
    53 bits are kept; what rounds to [2^1024] or more is an
    infinity. *)
Definition round (z : Z) : number :=
  let n := Z.abs z in
  if n <? 2 ^ 53 then Num z
  else
    let s := Z.log2 n - 52 in
    let q := Z.shiftr n s in
    let r := n - Z.shiftl q s in
    let half := Z.shiftl 1 (s - 1) in
    let q := if (half <? r) || ((r =? half) && Z.odd q) then q + 1 else q in
    let m := Z.shiftl q s in
    if 2 ^ 1024 <=? m then (if z <? 0 then NegInfinity else Infinity)
    else Num (Z.sgn z * m).

Definition opp (a : number) : number :=
  match a with
  | Num x => Num (- x)
  | NaN => NaN
  | Infinity => NegInfinity
  | NegInfinity => Infinity
  end.

Definition add (a b : number) : number :=
  match a, b with
  | Num x, Num y => round (x + y)
  | NaN, _ | _, NaN => NaN
  | Infinity, NegInfinity | NegInfinity, Infinity => NaN
  | Infinity, _ | _, Infinity => Infinity
  | NegInfinity, _ | _, NegInfinity => NegInfinity
  end.

Definition sub (a b : number) : number :=
  match a, b with
  | Num x, Num y => round (x - y)
  | _, _ => add a (opp b)
  end.

(** Sign of a number that is not [NaN]. *)
Definition sign (a : number) : Z :=
  match a with
  | Num x => Z.sgn x
  | Infinity => 1
  | NegInfinity => -1
  | NaN => 0
  end.

Definition mul (a b : number) : number :=
  match a, b with
  | Num x, Num y => round (x * y)
  | NaN, _ | _, NaN => NaN
  | _, _ =>
      match sign a * sign b with
      | Z0 => NaN
      | Zpos _ => Infinity
      | Zneg _ => NegInfinity
      end
  end.

(** [Math.abs] *)
Definition abs (a : number) : number :=
  match a with
  | Num x => Num (Z.abs x)
  | NaN => NaN
  | Infinity | NegInfinity => Infinity
  end.

(** [a > b]: every comparison with [NaN] is false. *)
Definition gt (a b : number) : bool :=
  match a, b with
  | Num x, Num y => y <? x
  | NaN, _ | _, NaN => false
  | Infinity, Infinity | NegInfinity, _ => false
  | Infinity, _ => true
  | Num _, Infinity => false
  | Num _, NegInfinity => true
  end.

(** [a <= b] *)
Definition le (a b : number) : bool :=
  match a, b with
  | Num x, Num y => x <=? y
  | NaN, _ | _, NaN => false
  | NegInfinity, _ | _, Infinity => true
  | Infinity, _ => false
  | Num _, NegInfinity => false
  end.

(** *** [Number::toString] *)

Definition decimal (z : Z) : string := NilZero.string_of_int (Z.to_int z).

(** Whether the decimal [s * 10^e] reads back as the double [x]. *)
Definition reads_as (x s e : Z) : bool :=
  match round (s * 10 ^ e) with
  | Num y => x =? y
  | _ => false
  end.

(** The fewest significant digits that read back as the double [x]
    (with [d] decimal digits), tried from [k] digits on: the digits [s]
    as a number, nearest to [x] when two candidates of that length read
    back. *)
Fixpoint shortest_from (fuel : nat) (k d x : Z) : Z :=
  match fuel with
  | O => x
  | S fuel =>
      let e := d - k in
      if e <=? 0 then x
      else
        let lo := x / 10 ^ e in
        let hi := lo + 1 in
        let lo_ok := reads_as x lo e in
        let hi_ok := (hi <? 10 ^ k) && reads_as x hi e in
        if lo_ok && hi_ok then
          let below := x - lo * 10 ^ e in
          let above := hi * 10 ^ e - x in
          if below <? above then lo
          else if above <? below then hi
          else if Z.even lo then lo else hi
        else if lo_ok then lo
        else if hi_ok then hi
        else shortest_from fuel (k + 1) d x
  end.

Fixpoint zeros (n : nat) : string :=
  match n with
  | O => EmptyString
  | S n => String "0" (zeros n)
  end.

(** Digits [s] standing for [s * 10^(n-k)], [k] the number of digits
    of [s]: plain up to 21 digits, with an exponent beyond. *)
Definition layout (s n : Z) : string :=
  let ds := decimal s in
  let k := Z.of_nat (String.length ds) in
  if n <=? 21 then ds +:+ zeros (Z.to_nat (n - k))
  else
    match ds with
    | String c EmptyString => String c ("e+" +:+ decimal (n - 1))
    | String c rest => String c ("." +:+ rest +:+ "e+" +:+ decimal (n - 1))
    | EmptyString => EmptyString
    end.

(** The digits of a positive double. *)
Definition positive_toString (x : Z) : string :=
  if x <? 2 ^ 53 then decimal x
  else
    let d := Z.of_nat (String.length (decimal x)) in
    if reads_as x 1 d then layout 1 (d + 1)
    else layout (shortest_from 17 1 d x) d.

(** [String(n)], as used by template literals and [textContent]. *)
Definition toString (n : number) : string :=
  match n with
  | Num z =>
      if Z.abs z <? 2 ^ 53 then decimal z
      else if z <? 0 then String "-" (positive_toString (- z))
      else positive_toString z
  | NaN => "NaN"
  | Infinity => "Infinity"
  | NegInfinity => "-Infinity"
  end.

(** *** [parseInt(s)] with no radix argument *)

Definition is_space (c : ascii) : bool :=
  let n := nat_of_ascii c in
  ((9 <=? n)%nat && (n <=? 13)%nat) || (n =? 32)%nat.

Fixpoint trim_start (s : string) : string :=
  match s with
  | String c r => if is_space c then trim_start r else s
  | EmptyString => EmptyString
  end.

(** Value of [c] as a digit, when it is one in base 16 or lower. *)
Definition digit_value (c : ascii) : option Z :=
  let n := Z.of_nat (nat_of_ascii c) in
  if (48 <=? n) && (n <=? 57) then Some (n - 48)
  else if (97 <=? n) && (n <=? 102) then Some (n - 87)
  else if (65 <=? n) && (n <=? 70) then Some (n - 55)
  else None.

(** Reads the longest prefix of digits below [radix]; [None] when that
    prefix is empty. *)
Fixpoint read_digits (radix : Z) (acc : option Z) (s : string) : option Z :=
  match s with
  | String c r =>
      match digit_value c with
      | Some d =>
          if d <? radix
          then read_digits radix (Some (radix * default 0 acc + d)) r
          else acc
      | None => acc
      end
  | EmptyString => acc
  end.

Definition strip_hex_prefix (s : string) : option string :=
  match s with
  | String "0" (String "x" r) => Some r
  | String "0" (String "X" r) => Some r
  | _ => None
  end.

(** The digits read denote an integer; the result is the double
    nearest to it. *)
Definition parseInt (s : string) : number :=
  let s := trim_start s in
  let '(sign, s) :=
    match s with
    | String "-" r => (-1, r)
    | String "+" r => (1, r)
    | _ => (1, s)
    end in
  let '(radix, s) :=
    match strip_hex_prefix s with
    | Some r => (16, r)
    | None => (10, s)
    end in
  match read_digits radix None s with
  | Some n => round (sign * n)
  | None => NaN
  end.

(** *** JSON values and [JSON.stringify] *)

#[local] Set Warnings "-register-all".
Inductive json : Type :=
| JNumber (n : number)
| JString (s : string)
| JArray (items : list json)
| JObject (fields : list (string * json)).

Definition hex_digit (n : nat) : ascii :=
  if (n <? 10)%nat then ascii_of_nat (48 + n) else ascii_of_nat (87 + n).

(** Escaping of one character inside a JSON string. *)
Definition escape_char (c : ascii) : string :=
  let n := nat_of_ascii c in
  if (n =? 34)%nat then String "\" (String c EmptyString)
  else if (n =? 92)%nat then "\\"
  else if (n =? 8)%nat then "\b"
  else if (n =? 9)%nat then "\t"
  else if (n =? 10)%nat then "\n"
  else if (n =? 12)%nat then "\f"
  else if (n =? 13)%nat then "\r"
  else if (n <? 32)%nat then
    "\u00" +:+ String (hex_digit (n / 16)) (String (hex_digit (n mod 16)) EmptyString)
  else String c EmptyString.

Fixpoint escape (s : string) : string :=
  match s with
  | String c r => escape_char c +:+ escape r
  | EmptyString => EmptyString
  end.

Definition quote (s : string) : string :=
  String (ascii_of_nat 34) (escape s +:+ String (ascii_of_nat 34) EmptyString).

(** A finite number prints as [String(n)]; [NaN] and the infinities
    print as [null]. *)
Definition stringify_number (n : number) : string :=
  match n with
  | Num _ => toString n
  | NaN | Infinity | NegInfinity => "null"
  end.

Fixpoint stringify (j : json) : string :=
  match j with
  | JNumber n => stringify_number n
  | JString s => quote s
  | JArray items => "[" +:+ String.concat "," (map stringify items) +:+ "]"
  | JObject fields =>
      "{" +:+ String.concat ","
                (map (fun kv => quote (fst kv) +:+ ":" +:+ stringify (snd kv)) fields)
          +:+ "}"
  end.

End JS.

(** ** What both scripts share: notifications and [fetch] outcomes *)

Module Net.

(** Second argument of [showNotification]. *)
Inductive kind : Type := Success | Error.

Definition notification : Type := (string * kind)%type.

(** The value a response body parses to, when it is not [null]: its
    properties [status], [redirect] and [message], [None] for a
    property that is absent (as every property of a value that is not
    an object is).  [message] is [None] as well when the property is
    falsy, and otherwise the string it converts to. *)
Record reply : Type := {
  status : option string;
  redirect : option string;
  message : option string
}.

(** [response.json()]: the parsed value, or a rejection carrying the
    parser's message.  On [null] the handler throws a [TypeError] when
    it reads [data.status]; [Null why] carries the message of that
    error. *)
Inductive body : Type :=
| Parsed (data : reply)
| Unparseable (why : string)
| Null (why : string).

(** How the promise returned by [fetch] settles. *)
Inductive outcome : Type :=
| Rejected (why : string)
| Response (http_status : Z) (statusText : string) (b : body).

(** [response.ok] *)
Definition ok (http_status : Z) : bool :=
  (200 <=? http_status) && (http_status <=? 299).

(** [m || fallback] on an optional string: [undefined] and the empty
    string are falsy. *)
Definition or_else (m : option string) (fallback : string) : string :=
  match m with
  | Some EmptyString | None => fallback
  | Some s => s
  end.

(** One closure of a progress simulation: its [progress] variable and
    whether its interval is still installed.  [progress] is a rational
    here; the rounding of doubles is not modelled. *)
Record timer : Type := { progress : Q; running : bool }.

(** Body of the interval callback: [progress += Math.random() * step;
    if (progress > ceiling) progress = ceiling], where [r] is the value
    [Math.random()] returned. *)
Definition advance (step ceiling r p : Q) : Q :=
  let p := (p + r * step)%Q in
  if negb (Qle_bool p ceiling) then ceiling else p.

End Net.

(** ** configure.js *)

Module Configure.
Import JS Net.

(** Values of the options of the [q_type_N] select. *)
Inductive qtype : Type := mcq | short | medium | long | numerical | case_study.

Definition qtype_value (t : qtype) : string :=
  match t with
  | mcq => "mcq"
  | short => "short"
  | medium => "medium"
  | long => "long"
  | numerical => "numerical"
  | case_study => "case_study"
  end.

Record QuestionSet : Type := {
  id : Z;
  type : qtype;
  marks : number;
  count : number
}.

(** The three assignments [questionSets[i][property] = value] the
    inline handlers perform. *)
Inductive property : Type :=
| p_type (value : qtype)
| p_marks (value : number)
| p_count (value : number).

Definition assign (p : property) (set : QuestionSet) : QuestionSet :=
  match p with
  | p_type v => {| id := id set; type := v; marks := marks set; count := count set |}
  | p_marks v => {| id := id set; type := type set; marks := v; count := count set |}
  | p_count v => {| id := id set; type := type set; marks := marks set; count := v |}
  end.

(** [#totalMarksDisplay] *)
Record display : Type := { textContent : string; className : string }.

(** The body handed to [fetch]: the URL and the [FormData] entries in
    the order they were appended. *)
Record request : Type := { url : string; formData : list (string * string) }.

(** Script variables, the DOM handles the script reads and writes
    (an [option] or [bool] where the script tests for the element),
    and the effects it has had.  [total_marks] to [instructions] are
    the values of the form controls of those ids; [loading] is
    [style.display] of the modal; [generateProgress] is the width of
    the bar in per cent; [timers] has one entry per submission sent, in
    order; [requests] are the calls to [fetch]; [scheduled] are the
    redirects handed to [setTimeout], with their delay.  The markup of
    a question set and the per-set subtotal label are rendering only
    and are left out. *)
Record state : Type := {
  questionSets : list QuestionSet;
  totalMarks : number;
  session_id : option string;
  questionSetsContainer : bool;
  total_marks : string;
  title : string;
  subject : string;
  difficulty : string;
  priority_topics : string;
  instructions : string;
  totalMarksDisplay : option display;
  loading : option string;
  generateProgress : option Q;
  timers : list timer;
  notifications : list notification;
  requests : list request;
  scheduled : list (Z * option string)
}.

Definition set_questionSets (v : list QuestionSet) (st : state) : state :=
  {| questionSets := v; totalMarks := totalMarks st; session_id := session_id st;
     questionSetsContainer := questionSetsContainer st; total_marks := total_marks st;
     title := title st; subject := subject st; difficulty := difficulty st;
     priority_topics := priority_topics st; instructions := instructions st;
     totalMarksDisplay := totalMarksDisplay st; loading := loading st;
     generateProgress := generateProgress st; timers := timers st;
     notifications := notifications st; requests := requests st;
     scheduled := scheduled st |}.

Definition set_totalMarks (v : number) (st : state) : state :=
  {| questionSets := questionSets st; totalMarks := v; session_id := session_id st;
     questionSetsContainer := questionSetsContainer st; total_marks := total_marks st;
     title := title st; subject := subject st; difficulty := difficulty st;
     priority_topics := priority_topics st; instructions := instructions st;
     totalMarksDisplay := totalMarksDisplay st; loading := loading st;
     generateProgress := generateProgress st; timers := timers st;
     notifications := notifications st; requests := requests st;
     scheduled := scheduled st |}.

Definition set_total_marks (v : string) (st : state) : state :=
  {| questionSets := questionSets st; totalMarks := totalMarks st; session_id := session_id st;
     questionSetsContainer := questionSetsContainer st; total_marks := v;
     title := title st; subject := subject st; difficulty := difficulty st;
     priority_topics := priority_topics st; instructions := instructions st;
     totalMarksDisplay := totalMarksDisplay st; loading := loading st;
     generateProgress := generateProgress st; timers := timers st;
     notifications := notifications st; requests := requests st;
     scheduled := scheduled st |}.

Definition set_totalMarksDisplay (v : option display) (st : state) : state :=
  {| questionSets := questionSets st; totalMarks := totalMarks st; session_id := session_id st;
     questionSetsContainer := questionSetsContainer st; total_marks := total_marks st;
     title := title st; subject := subject st; difficulty := difficulty st;
     priority_topics := priority_topics st; instructions := instructions st;
     totalMarksDisplay := v; loading := loading st;
     generateProgress := generateProgress st; timers := timers st;
     notifications := notifications st; requests := requests st;
     scheduled := scheduled st |}.

Definition set_loading (v : option string) (st : state) : state :=
  {| questionSets := questionSets st; totalMarks := totalMarks st; session_id := session_id st;
     questionSetsContainer := questionSetsContainer st; total_marks := total_marks st;
     title := title st; subject := subject st; difficulty := difficulty st;
     priority_topics := priority_topics st; instructions := instructions st;
     totalMarksDisplay := totalMarksDisplay st; loading := v;
     generateProgress := generateProgress st; timers := timers st;
     notifications := notifications st; requests := requests st;
     scheduled := scheduled st |}.

Definition set_generateProgress (v : option Q) (st : state) : state :=
  {| questionSets := questionSets st; totalMarks := totalMarks st; session_id := session_id st;
     questionSetsContainer := questionSetsContainer st; total_marks := total_marks st;
     title := title st; subject := subject st; difficulty := difficulty st;
     priority_topics := priority_topics st; instructions := instructions st;
     totalMarksDisplay := totalMarksDisplay st; loading := loading st;
     generateProgress := v; timers := timers st;
     notifications := notifications st; requests := requests st;
     scheduled := scheduled st |}.

Definition set_timers (v : list timer) (st : state) : state :=
  {| questionSets := questionSets st; totalMarks := totalMarks st; session_id := session_id st;
     questionSetsContainer := questionSetsContainer st; total_marks := total_marks st;
     title := title st; subject := subject st; difficulty := difficulty st;
     priority_topics := priority_topics st; instructions := instructions st;
     totalMarksDisplay := totalMarksDisplay st; loading := loading st;
     generateProgress := generateProgress st; timers := v;
     notifications := notifications st; requests := requests st;
     scheduled := scheduled st |}.

Definition set_notifications (v : list notification) (st : state) : state :=
  {| questionSets := questionSets st; totalMarks := totalMarks st; session_id := session_id st;
     questionSetsContainer := questionSetsContainer st; total_marks := total_marks st;
     title := title st; subject := subject st; difficulty := difficulty st;
     priority_topics := priority_topics st; instructions := instructions st;
     totalMarksDisplay := totalMarksDisplay st; loading := loading st;
     generateProgress := generateProgress st; timers := timers st;
     notifications := v; requests := requests st;
     scheduled := scheduled st |}.

Definition set_requests (v : list request) (st : state) : state :=
  {| questionSets := questionSets st; totalMarks := totalMarks st; session_id := session_id st;
     questionSetsContainer := questionSetsContainer st; total_marks := total_marks st;
     title := title st; subject := subject st; difficulty := difficulty st;
     priority_topics := priority_topics st; instructions := instructions st;
     totalMarksDisplay := totalMarksDisplay st; loading := loading st;
     generateProgress := generateProgress st; timers := timers st;
     notifications := notifications st; requests := v;
     scheduled := scheduled st |}.

Definition set_scheduled (v : list (Z * option string)) (st : state) : state :=
  {| questionSets := questionSets st; totalMarks := totalMarks st; session_id := session_id st;
     questionSetsContainer := questionSetsContainer st; total_marks := total_marks st;
     title := title st; subject := subject st; difficulty := difficulty st;
     priority_topics := priority_topics st; instructions := instructions st;
     totalMarksDisplay := totalMarksDisplay st; loading := loading st;
     generateProgress := generateProgress st; timers := timers st;
     notifications := notifications st; requests := requests st;
     scheduled := v |}.

(** [showNotification(message, kind)]: the sink records the call. *)
Definition showNotification (m : string) (k : kind) (st : state) : state :=
  set_notifications (notifications st ++ [(m, k)]) st.

(** *** Running total and its indicator *)

Definition green : string := "text-green-600 font-bold".
Definition red : string := "text-red-600 font-bold".

(** The test of [updateMarksValidation]:
    [Math.abs(totalMarks - targetMarks) <= 5]. *)
Definition within_tolerance (total target : number) : bool :=
  le (abs (sub total target)) (Num 5).

(** The test of [handleSubmit]:
    [Math.abs(totalMarks - targetMarks) > 5]. *)
Definition exceeds_tolerance (total target : number) : bool :=
  gt (abs (sub total target)) (Num 5).

Definition updateMarksValidation (st : state) : state :=
  let targetMarks := parseInt (total_marks st) in
  match totalMarksDisplay st with
  | Some display =>
      if within_tolerance (totalMarks st) targetMarks
      then set_totalMarksDisplay
             (Some {| textContent := textContent display; className := green |}) st
      else set_totalMarksDisplay
             (Some {| textContent := textContent display; className := red |}) st
  | None => st
  end.

(** [questionSets.reduce((sum, set) => sum + (set.marks * set.count), 0)] *)
Definition reduce_marks (sets : list QuestionSet) : number :=
  fold_left (fun sum set => add sum (mul (marks set) (count set))) sets (Num 0).

Definition updateTotalMarks (st : state) : state :=
  let st := set_totalMarks (reduce_marks (questionSets st)) st in
  let st :=
    match totalMarksDisplay st with
    | Some display =>
        set_totalMarksDisplay
          (Some {| textContent := toString (totalMarks st);
                   className := className display |}) st
    | None => st
    end in
  updateMarksValidation st.

(** *** Editing the list of question sets *)

Definition addQuestionSet (st : state) : state :=
  if negb (questionSetsContainer st) then st
  else
    let setIndex := Z.of_nat (length (questionSets st)) in
    let questionSet :=
      {| id := setIndex; type := short; marks := Num 5; count := Num 1 |} in
    updateTotalMarks (set_questionSets (questionSets st ++ [questionSet]) st).

(** [questionSets[setIndex]]: [undefined] outside the array. *)
Definition at_index (sets : list QuestionSet) (setIndex : Z) : option QuestionSet :=
  if setIndex <? 0 then None else sets !! Z.to_nat setIndex.

Definition updateQuestionSet (setIndex : Z) (p : property) (st : state) : state :=
  match at_index (questionSets st) setIndex with
  | Some set =>
      updateTotalMarks
        (set_questionSets (<[Z.to_nat setIndex := assign p set]> (questionSets st)) st)
  | None => st
  end.

Definition removeQuestionSet (setIndex : Z) (st : state) : state :=
  if (length (questionSets st) <=? 1)%nat
  then showNotification "At least one question set is required." Error st
  else
    updateTotalMarks
      (set_questionSets (filter (fun set => id set ≠ setIndex) (questionSets st)) st).

(** *** Submission *)

(** [questionConfig], the object handed to [JSON.stringify]. *)
Definition questionConfig (sets : list QuestionSet) : json :=
  JObject
    [("question_sets",
      JArray (map (fun set =>
                     JObject [("type", JString (qtype_value (type set)));
                              ("marks", JNumber (marks set));
                              ("count", JNumber (count set))])
                  sets))].

(** [v || fallback] on the value of a form control. *)
Definition value_or (v fallback : string) : string :=
  match v with
  | EmptyString => fallback
  | _ => v
  end.

Definition handleSubmit (st : state) : state :=
  match session_id st with
  | None | Some EmptyString =>
      showNotification "Session expired. Please start over." Error st
  | Some sessionId =>
      if (length (questionSets st) =? 0)%nat
      then showNotification "Please add at least one question set." Error st
      else
        let targetMarks := parseInt (total_marks st) in
        if exceeds_tolerance (totalMarks st) targetMarks
        then showNotification
               ("Total marks (" +:+ toString (totalMarks st)
                +:+ ") should be close to target marks ("
                +:+ toString targetMarks +:+ ").") Error st
        else
          let formData :=
            [("title", value_or (title st) "Generated Paper");
             ("subject", value_or (subject st) "General Subject");
             ("total_marks", value_or (total_marks st) "100");
             ("difficulty", value_or (difficulty st) "5");
             ("priority_topics", priority_topics st);
             ("instructions", instructions st);
             ("question_config", stringify (questionConfig (questionSets st)))] in
          let st :=
            match loading st with
            | Some _ => set_loading (Some "flex") st
            | None => st
            end in
          let st := set_timers (timers st ++ [{| progress := 0%Q; running := true |}]) st in
          set_requests
            (requests st ++ [{| url := "/generate/" +:+ sessionId; formData := formData |}])
            st
  end.

(** The interval callback of the submission whose closure is
    [timers !! i]; [r] is what [Math.random()] returned.  A cleared
    interval does not fire. *)
Definition tick (i : nat) (r : Q) (st : state) : state :=
  match timers st !! i with
  | Some t =>
      if running t then
        let progress := advance 10 80 r (progress t) in
        let st := set_timers (<[i := {| progress := progress; running := true |}]> (timers st)) st in
        match generateProgress st with
        | Some _ => set_generateProgress (Some progress) st
        | None => st
        end
      else st
  | None => st
  end.

(** [clearInterval(progressInterval)] *)
Definition clearInterval (i : nat) (st : state) : state :=
  match timers st !! i with
  | Some t => set_timers (<[i := {| progress := progress t; running := false |}]> (timers st)) st
  | None => st
  end.

(** The [.catch] handler. *)
Definition on_error (i : nat) (why : string) (st : state) : state :=
  let st := clearInterval i st in
  let st := showNotification ("Generation failed: " +:+ why) Error st in
  match loading st with
  | Some _ => set_loading (Some "none") st
  | None => st
  end.

(** The second [.then] handler. *)
Definition on_data (i : nat) (data : reply) (st : state) : state :=
  let st := clearInterval i st in
  let st :=
    match generateProgress st with
    | Some _ => set_generateProgress (Some 100%Q) st
    | None => st
    end in
  if decide (status data = Some "success")
  then
    let st := showNotification "Question paper generated successfully!" Success st in
    set_scheduled (scheduled st ++ [(1500, redirect data)]) st
  else on_error i (or_else (message data) "Generation failed") st.

(** The second [.then] handler on [null]: the interval is cleared and
    the bar set before [data.status] throws. *)
Definition on_null (i : nat) (why : string) (st : state) : state :=
  let st := clearInterval i st in
  let st :=
    match generateProgress st with
    | Some _ => set_generateProgress (Some 100%Q) st
    | None => st
    end in
  on_error i why st.

(** The promise chain on [fetch], run when the request of submission
    [i] settles. *)
Definition settle (i : nat) (o : outcome) (st : state) : state :=
  match o with
  | Rejected why => on_error i why st
  | Response http_status statusText b =>
      if negb (ok http_status)
      then on_error i ("HTTP " +:+ toString (Num http_status) +:+ ": " +:+ statusText) st
      else
        match b with
        | Parsed data => on_data i data st
        | Unparseable why => on_error i why st
        | Null why => on_null i why st
        end
  end.

(** *** The page as a transition system *)

(** Script variables as initialised at load, on a page whose controls
    are those of [p]. *)
Definition loaded (p : state) : state :=
  set_totalMarks (Num 0) (set_questionSets [] p).

(** The [DOMContentLoaded] handler: one default question set. *)
Definition init (p : state) : state := addQuestionSet (loaded p).

(** What the user can do: the add button, the inline [onchange] and
    [onclick] handlers, the target select, the submit button. *)
Inductive action : Type :=
| Add
| Update (setIndex : Z) (p : property)
| Remove (setIndex : Z)
| ChangeTarget (value : string)
| Submit.

Definition step (a : action) (st : state) : state :=
  match a with
  | Add => addQuestionSet st
  | Update i p => updateQuestionSet i p st
  | Remove i => removeQuestionSet i st
  | ChangeTarget v => updateMarksValidation (set_total_marks v st)
  | Submit => handleSubmit st
  end.

Definition run (acts : list action) (st : state) : state :=
  fold_left (fun st a => step a st) acts st.

End Configure.

(** ** upload.js *)

Module Upload.
Import JS Net.

(** A [File] handle: what the script reads of it. *)
Record File : Type := { name : string; size : Z; type : string }.

(** The script variable, the DOM handles the script writes (all are
    dereferenced unguarded, so all exist), and the effects it has had.
    [filePreview] holds the files the preview list was last rendered
    from, one removable item per file; its markup is left out.
    [uploadProgress_hidden] tells whether the progress container has
    the class [hidden]; [progressBar] is the width of the bar in per
    cent; [requests] are the calls to [fetch], each with its [FormData]
    entries; [scheduled] are the redirects handed to [setTimeout]. *)
Record state : Type := {
  selectedFiles : list File;
  filePreview : list File;
  uploadBtn_disabled : bool;
  uploadProgress_hidden : bool;
  progressBar : Q;
  progressText : string;
  timers : list timer;
  notifications : list notification;
  requests : list (string * list (string * File));
  scheduled : list (Z * option string)
}.

Definition set_selectedFiles (v : list File) (st : state) : state :=
  {| selectedFiles := v; filePreview := filePreview st;
     uploadBtn_disabled := uploadBtn_disabled st;
     uploadProgress_hidden := uploadProgress_hidden st;
     progressBar := progressBar st; progressText := progressText st;
     timers := timers st; notifications := notifications st;
     requests := requests st; scheduled := scheduled st |}.

Definition set_filePreview (v : list File) (st : state) : state :=
  {| selectedFiles := selectedFiles st; filePreview := v;
     uploadBtn_disabled := uploadBtn_disabled st;
     uploadProgress_hidden := uploadProgress_hidden st;
     progressBar := progressBar st; progressText := progressText st;
     timers := timers st; notifications := notifications st;
     requests := requests st; scheduled := scheduled st |}.

Definition set_uploadBtn_disabled (v : bool) (st : state) : state :=
  {| selectedFiles := selectedFiles st; filePreview := filePreview st;
     uploadBtn_disabled := v;
     uploadProgress_hidden := uploadProgress_hidden st;
     progressBar := progressBar st; progressText := progressText st;
     timers := timers st; notifications := notifications st;
     requests := requests st; scheduled := scheduled st |}.

Definition set_uploadProgress_hidden (v : bool) (st : state) : state :=
  {| selectedFiles := selectedFiles st; filePreview := filePreview st;
     uploadBtn_disabled := uploadBtn_disabled st;
     uploadProgress_hidden := v;
     progressBar := progressBar st; progressText := progressText st;
     timers := timers st; notifications := notifications st;
     requests := requests st; scheduled := scheduled st |}.

Definition set_progressBar (v : Q) (st : state) : state :=
  {| selectedFiles := selectedFiles st; filePreview := filePreview st;
     uploadBtn_disabled := uploadBtn_disabled st;
     uploadProgress_hidden := uploadProgress_hidden st;
     progressBar := v; progressText := progressText st;
     timers := timers st; notifications := notifications st;
     requests := requests st; scheduled := scheduled st |}.

Definition set_progressText (v : string) (st : state) : state :=
  {| selectedFiles := selectedFiles st; filePreview := filePreview st;
     uploadBtn_disabled := uploadBtn_disabled st;
     uploadProgress_hidden := uploadProgress_hidden st;
     progressBar := progressBar st; progressText := v;
     timers := timers st; notifications := notifications st;
     requests := requests st; scheduled := scheduled st |}.

Definition set_timers (v : list timer) (st : state) : state :=
  {| selectedFiles := selectedFiles st; filePreview := filePreview st;
     uploadBtn_disabled := uploadBtn_disabled st;
     uploadProgress_hidden := uploadProgress_hidden st;
     progressBar := progressBar st; progressText := progressText st;
     timers := v; notifications := notifications st;
     requests := requests st; scheduled := scheduled st |}.

Definition set_notifications (v : list notification) (st : state) : state :=
  {| selectedFiles := selectedFiles st; filePreview := filePreview st;
     uploadBtn_disabled := uploadBtn_disabled st;
     uploadProgress_hidden := uploadProgress_hidden st;
     progressBar := progressBar st; progressText := progressText st;
     timers := timers st; notifications := v;
     requests := requests st; scheduled := scheduled st |}.

Definition set_requests (v : list (string * list (string * File))) (st : state) : state :=
  {| selectedFiles := selectedFiles st; filePreview := filePreview st;
     uploadBtn_disabled := uploadBtn_disabled st;
     uploadProgress_hidden := uploadProgress_hidden st;
     progressBar := progressBar st; progressText := progressText st;
     timers := timers st; notifications := notifications st;
     requests := v; scheduled := scheduled st |}.

Definition set_scheduled (v : list (Z * option string)) (st : state) : state :=
  {| selectedFiles := selectedFiles st; filePreview := filePreview st;
     uploadBtn_disabled := uploadBtn_disabled st;
     uploadProgress_hidden := uploadProgress_hidden st;
     progressBar := progressBar st; progressText := progressText st;
     timers := timers st; notifications := notifications st;
     requests := requests st; scheduled := v |}.

Definition showNotification (m : string) (k : kind) (st : state) : state :=
  set_notifications (notifications st ++ [(m, k)]) st.

Definition updateFilePreview (st : state) : state :=
  set_filePreview (selectedFiles st) st.

Definition updateUploadButton (st : state) : state :=
  set_uploadBtn_disabled (length (selectedFiles st) =? 0)%nat st.

Definition handleFiles (files : list File) (st : state) : state :=
  updateUploadButton (updateFilePreview (set_selectedFiles files st)).

(** [Array.prototype.splice(start, deleteCount)] with no items to
    insert, for an integer [start]: a negative [start] counts from the
    end of the array, and both ends are clamped to the array. *)
Definition splice {A : Type} (start deleteCount : Z) (l : list A) : list A :=
  let len := Z.of_nat (length l) in
  let actualStart :=
    if start <? 0 then Z.max (len + start) 0 else Z.min start len in
  let actualDeleteCount := Z.min (Z.max deleteCount 0) (len - actualStart) in
  take (Z.to_nat actualStart) l ++ drop (Z.to_nat (actualStart + actualDeleteCount)) l.

Definition removeFile (index : Z) (st : state) : state :=
  updateUploadButton
    (updateFilePreview (set_selectedFiles (splice index 1 (selectedFiles st)) st)).

Definition uploadFiles (st : state) : state :=
  if (length (selectedFiles st) =? 0)%nat then st
  else
    let formData := map (fun file => ("files", file)) (selectedFiles st) in
    let st := set_uploadProgress_hidden false st in
    let st := set_uploadBtn_disabled true st in
    let st := set_timers (timers st ++ [{| progress := 0%Q; running := true |}]) st in
    set_requests (requests st ++ [("/upload", formData)]) st.

(** The interval callback of the upload whose closure is
    [timers !! i]. *)
Definition tick (i : nat) (r : Q) (st : state) : state :=
  match timers st !! i with
  | Some t =>
      if running t then
        let progress := advance 15 90 r (progress t) in
        let st := set_timers (<[i := {| progress := progress; running := true |}]> (timers st)) st in
        set_progressBar progress st
      else st
  | None => st
  end.

Definition clearInterval (i : nat) (st : state) : state :=
  match timers st !! i with
  | Some t => set_timers (<[i := {| progress := progress t; running := false |}]> (timers st)) st
  | None => st
  end.

(** The [.catch] handler. *)
Definition on_error (i : nat) (why : string) (st : state) : state :=
  let st := clearInterval i st in
  let st := showNotification ("Upload failed: " +:+ why) Error st in
  let st := set_uploadProgress_hidden true st in
  set_uploadBtn_disabled false st.

(** The second [.then] handler. *)
Definition on_data (i : nat) (data : reply) (st : state) : state :=
  let st := clearInterval i st in
  let st := set_progressBar 100%Q st in
  if decide (status data = Some "success")
  then
    let st := set_progressText "Processing complete!" st in
    let st := showNotification "Files uploaded successfully!" Success st in
    set_scheduled (scheduled st ++ [(1000, redirect data)]) st
  else on_error i (or_else (message data) "Upload failed") st.

(** The second [.then] handler on [null]: the interval is cleared and
    the bar set before [data.status] throws. *)
Definition on_null (i : nat) (why : string) (st : state) : state :=
  let st := clearInterval i st in
  let st := set_progressBar 100%Q st in
  on_error i why st.

(** The promise chain on [fetch]: [response => response.json()] runs
    on every response. *)
Definition settle (i : nat) (o : outcome) (st : state) : state :=
  match o with
  | Rejected why => on_error i why st
  | Response _ _ (Parsed data) => on_data i data st
  | Response _ _ (Unparseable why) => on_error i why st
  | Response _ _ (Null why) => on_null i why st
  end.

End Upload.

(** ** configure.js: the topic tags *)

Module Topics.

(** An element of class [topic-tag]: its [data-topic] attribute
    ([None] when the attribute is absent, so that [dataset.topic] is
    [undefined]) and the tokens of its [classList]. *)
Record tag : Type := { topic : option string; classList : list string }.

(** The tags [setupTopicTags] found, the variable [selectedTopics] its
    handlers share, and the value of [#priority_topics] ([None] when
    the page has no such input). *)
Record state : Type := {
  topicTags : list tag;
  selectedTopics : list (option string);
  priorityInput : option string
}.

(** [classList.add(token)]: the token list is a set in order of
    insertion. *)
Definition classList_add (token : string) (l : list string) : list string :=
  if decide (token ∈ l) then l else l ++ [token].

(** [classList.remove(token)] *)
Definition classList_remove (token : string) (l : list string) : list string :=
  filter (fun t => t ≠ token) l.

(** [selectedTopics.join(', ')]: [undefined] joins as the empty
    string. *)
Definition join (l : list (option string)) : string :=
  String.concat ", " (map (default EmptyString) l).

(** The click handler installed on tag number [j]. *)
Definition click (j : nat) (st : state) : state :=
  match topicTags st !! j with
  | Some this =>
      let '(selected, classes) :=
        if decide (topic this ∈ selectedTopics st)
        then (filter (fun t => t ≠ topic this) (selectedTopics st),
              classList_add "bg-gray-200" (classList_remove "bg-blue-200" (classList this)))
        else (selectedTopics st ++ [topic this],
              classList_add "bg-blue-200" (classList_remove "bg-gray-200" (classList this))) in
      {| topicTags := <[j := {| topic := topic this; classList := classes |}]> (topicTags st);
         selectedTopics := selected;
         priorityInput :=
           match priorityInput st with
           | Some _ => Some (join selected)
           | None => None
           end |}
  | None => st
  end.

(** [setupTopicTags] on a page with these tags. *)
Definition setupTopicTags (tags : list tag) (input : option string) : state :=
  {| topicTags := tags; selectedTopics := []; priorityInput := input |}.

Definition clicks (js : list nat) (st : state) : state :=
  fold_left (fun st j => click j st) js st.

End Topics.

(** * Scenarios and the specification's own wording *)

Import JS Net.

(** A page as served: session [abc], target 100, every handle present. *)
Definition sample_page : Configure.state :=
  {| Configure.questionSets := [];
     Configure.totalMarks := Num 0;
     Configure.session_id := Some "abc";
     Configure.questionSetsContainer := true;
     Configure.total_marks := "100";
     Configure.title := "Midterm";
     Configure.subject := "Physics";
     Configure.difficulty := "5";
     Configure.priority_topics := EmptyString;
     Configure.instructions := EmptyString;
     Configure.totalMarksDisplay :=
       Some {| Configure.textContent := "0"; Configure.className := EmptyString |};
     Configure.loading := Some "none";
     Configure.generateProgress := Some 0%Q;
     Configure.timers := [];
     Configure.notifications := [];
     Configure.requests := [];
     Configure.scheduled := [] |}.

Import Configure.

(** The total as the specification words it: the sum, over the sets
    that are live, of marks per question times count, in exact
    integers.  [subtotals] is [None] when a mark or a count is no
    finite number. *)
Definition subtotal (set : QuestionSet) : option Z :=
  match marks set, count set with
  | Num m, Num c => Some (m * c)
  | _, _ => None
  end.

Fixpoint subtotals (sets : list QuestionSet) : option (list Z) :=
  match sets with
  | [] => Some []
  | set :: sets =>
      match subtotal set, subtotals sets with
      | Some z, Some l => Some (z :: l)
      | _, _ => None
      end
  end.

Definition sum (l : list Z) : Z := foldr Z.add 0 l.

(** The magnitudes add up to no more than [2^53]: every partial sum is
    then a double. *)
Definition fits_doubles (l : list Z) : Prop :=
  foldr (fun z acc => Z.abs z + acc) 0 l <= 2 ^ 53.

(** Marks 1 and counts 9007199254740992, 1 and 1: the second and the
    third set were added and their marks set to 1. *)
Definition huge_count : state :=
  run [Update 0 (p_marks (parseInt "1"));
       Update 0 (p_count (parseInt "9007199254740992"));
       Add; Update 1 (p_marks (parseInt "1"));
       Add; Update 2 (p_marks (parseInt "1"))] (init sample_page).

(** JSON text written with an apostrophe wherever the text has a
    double quote. *)
Fixpoint json_text (s : string) : string :=
  match s with
  | String c r => String (if Ascii.eqb c "'" then "034"%char else c) (json_text r)
  | EmptyString => EmptyString
  end.

(** The document the specification gives for [question_config]: for
    each set, in order, its type, its marks and its count. *)
Definition set_document (set : QuestionSet) : string :=
  json_text "{'type':'" +:+ qtype_value (type set)
  +:+ json_text "','marks':" +:+ stringify_number (marks set)
  +:+ json_text ",'count':" +:+ stringify_number (count set) +:+ "}".

Definition question_config_document (sets : list QuestionSet) : string :=
  json_text "{'question_sets':[" +:+ String.concat "," (map set_document sets) +:+ "]}".

(** The tolerance notification of [handleSubmit]. *)
Definition tolerance_message (total target : number) : string :=
  "Total marks (" +:+ toString total +:+ ") should be close to target marks ("
  +:+ toString target +:+ ").".

(** The entries [handleSubmit] appends to its [FormData]. *)
Definition form_entries (st : state) : list (string * string) :=
  [("title", value_or (title st) "Generated Paper");
   ("subject", value_or (subject st) "General Subject");
   ("total_marks", value_or (total_marks st) "100");
   ("difficulty", value_or (difficulty st) "5");
   ("priority_topics", priority_topics st);
   ("instructions", instructions st);
   ("question_config", question_config_document (questionSets st))].

(** One question set [(short, 5, 4)] against a target of 20. *)
Definition short_5_4 : state :=
  run [Update 0 (p_count (parseInt "4")); ChangeTarget "20"] (init sample_page).

(** The user has emptied the count field of set 0: its [onchange]
    handler passes [parseInt('')]. *)
Definition count_emptied : state :=
  run [Update 0 (p_count (parseInt EmptyString))] (init sample_page).

(** The maintained total is in step with the list. *)
Definition total_in_step (st : state) : Prop :=
  totalMarks st = reduce_marks (questionSets st).

(** Every set carries its position as id: what holds as long as nothing
    has been removed. *)
Definition ids_are_positions (sets : list QuestionSet) : Prop :=
  forall (k : nat) (set : QuestionSet), sets !! k = Some set -> id set = Z.of_nat k.

Definition notes_pdf : Upload.File :=
  {| Upload.name := "notes.pdf"; Upload.size := 120000; Upload.type := "application/pdf" |}.

Definition scan_png : Upload.File :=
  {| Upload.name := "scan.png"; Upload.size := 48000; Upload.type := "image/png" |}.

(** The upload page as served: nothing selected, button disabled,
    progress hidden. *)
Definition upload_page : Upload.state :=
  {| Upload.selectedFiles := [];
     Upload.filePreview := [];
     Upload.uploadBtn_disabled := true;
     Upload.uploadProgress_hidden := true;
     Upload.progressBar := 0%Q;
     Upload.progressText := "Uploading...";
     Upload.timers := [];
     Upload.notifications := [];
     Upload.requests := [];
     Upload.scheduled := [] |}.

(** Two files picked, upload button pressed. *)
Definition uploading : Upload.state :=
  Upload.uploadFiles (Upload.handleFiles [notes_pdf; scan_png] upload_page).

(** A body that declares success. *)
Definition declared_success : reply :=
  {| status := Some "success"; redirect := Some "/configure/abc"; message := None |}.

(** The [progress] variable of one closure after the interval has fired
    once for each value of [rs], the values [Math.random()] returned. *)
Definition simulate (step ceiling : Q) (rs : list Q) (p : Q) : Q :=
  fold_left (fun p r => advance step ceiling r p) rs p.

Definition upload_ticks (i : nat) (rs : list Q) (st : Upload.state) : Upload.state :=
  fold_left (fun st r => Upload.tick i r st) rs st.

Definition generation_ticks (i : nat) (rs : list Q) (st : Configure.state) : Configure.state :=
  fold_left (fun st r => Configure.tick i r st) rs st.

(** What [Math.random()] can return. *)
Definition random_value (r : Q) : Prop := (0 <= r /\ r < 1)%Q.

(** What a write to the bar leaves in [generateProgress]: nothing when
    the page has no bar. *)
Definition bar_set (w : Q) (bar : option Q) : option Q :=
  match bar with
  | Some _ => Some w
  | None => None
  end.

(** Two tags as rendered, nothing selected, an empty input. *)
Definition sample_tags : list Topics.tag :=
  [{| Topics.topic := Some "Optics"; Topics.classList := ["topic-tag"; "bg-gray-200"] |};
   {| Topics.topic := Some "Waves"; Topics.classList := ["topic-tag"; "bg-gray-200"] |}].

Definition sample_topics : Topics.state :=
  Topics.setupTopicTags sample_tags (Some EmptyString).

(** A tag carries the highlight class exactly when its topic is
    selected. *)
Definition highlight_in_step (st : Topics.state) : Prop :=
  forall (k : nat) (tag : Topics.tag),
    Topics.topicTags st !! k = Some tag ->
    ("bg-blue-200" ∈ Topics.classList tag
     <-> Topics.topic tag ∈ Topics.selectedTopics st).

(** The indicator shows the running total and the class that the
    tolerance test gives for it. *)
Definition indicator_in_step (st : state) : Prop :=
  totalMarksDisplay st
  = Some {| textContent := toString (totalMarks st);
            className := if within_tolerance (totalMarks st) (parseInt (total_marks st))
                         then green else red |}.

(** What [handleSubmit] requires before it sends. *)
Definition passes_guards (st : state) : Prop :=
  (exists sid, session_id st = Some sid /\ sid <> EmptyString)
  /\ questionSets st <> []
  /\ exceeds_tolerance (totalMarks st) (parseInt (total_marks st)) = false.

(** The request [handleSubmit] builds. *)
Definition generation_request (st : state) : request :=
  {| url := "/generate/" +:+ default EmptyString (session_id st);
     formData := form_entries st |}.

(** The outcome on which the generation chain reports success. *)
Definition generation_succeeds (o : outcome) : option reply :=
  match o with
  | Response s _ (Parsed data) =>
      if ok s && bool_decide (status data = Some "success") then Some data else None
  | _ => None
  end.

(** The reason the generation chain reports when it fails. *)
Definition generation_failure (o : outcome) : string :=
  match o with
  | Rejected why => why
  | Response s txt b =>
      if ok s then
        match b with
        | Parsed data => or_else (message data) "Generation failed"
        | Unparseable why => why
        | Null why => why
        end
      else "HTTP " +:+ toString (Num s) +:+ ": " +:+ txt
  end.

(** The outcome on which the upload chain reports success. *)
Definition upload_succeeds (o : outcome) : option reply :=
  match o with
  | Response _ _ (Parsed data) =>
      if bool_decide (status data = Some "success") then Some data else None
  | _ => None
  end.

(** The reason the upload chain reports when it fails. *)
Definition upload_failure (o : outcome) : string :=
  match o with
  | Rejected why => why
  | Response _ _ (Parsed data) => or_else (message data) "Upload failed"
  | Response _ _ (Unparseable why) => why
  | Response _ _ (Null why) => why
  end.

(** Everything [handleSubmit] reads. *)
Definition inputs (st : state) :=
  (session_id st, questionSets st, totalMarks st, total_marks st,
   (title st, subject st, difficulty st, priority_topics st, instructions st)).

(** What happens to the page between two submissions: an interval
    fires, or a request settles. *)
Inductive async : Type :=
| Fire (i : nat) (r : Q)
| Settled (i : nat) (o : outcome).

Definition async_step (st : state) (e : async) : state :=
  match e with
  | Fire i r => Configure.tick i r st
  | Settled i o => Configure.settle i o st
  end.

(** No set stands at a position above its id. *)
Definition ids_cover_positions (sets : list QuestionSet) : Prop :=
  forall (k : nat) (set : QuestionSet), sets !! k = Some set -> Z.of_nat k <= id set.

(** The request [uploadFiles] builds: one part per selected file, in
    order, all under the key [files]. *)
Definition upload_request (st : Upload.state) : string * list (string * Upload.File) :=
  ("/upload", map (fun file => ("files", file)) (Upload.selectedFiles st)).

(** Everything that can happen on the configuration page: the user
    acts, an interval fires, a request settles. *)
Inductive event : Type :=
| User (a : action)
| Async (e : async).

Definition event_step (st : state) (e : event) : state :=
  match e with
  | User a => step a st
  | Async e => async_step st e
  end.

(** The values handed to the interval callbacks are values of
    [Math.random()]. *)
Definition fires_randomly (e : event) : Prop :=
  match e with
  | Async (Fire _ r) => random_value r
  | _ => True
  end.

(** Every closure of the generation simulation holds a progress between
    0 and 80, and the bar, when there is one, a width between 0 and
    100. *)
Definition progress_in_range (st : state) : Prop :=
  Forall (fun t => 0 <= progress t /\ progress t <= 80)%Q (Configure.timers st)
  /\ match generateProgress st with
     | Some w => (0 <= w /\ w <= 100)%Q
     | None => True
     end.

(** Everything that can happen on the upload page: files are picked or
    dropped, a preview item is removed, the upload handler runs, an
    interval fires, a request settles. *)
Inductive upload_event : Type :=
| Pick (files : list Upload.File)
| RemoveAt (index : Z)
| ClickUpload
| UploadFire (i : nat) (r : Q)
| UploadSettled (i : nat) (o : outcome).

Definition upload_event_step (st : Upload.state) (e : upload_event) : Upload.state :=
  match e with
  | Pick files => Upload.handleFiles files st
  | RemoveAt index => Upload.removeFile index st
  | ClickUpload => Upload.uploadFiles st
  | UploadFire i r => Upload.tick i r st
  | UploadSettled i o => Upload.settle i o st
  end.

Definition upload_fires_randomly (e : upload_event) : Prop :=
  match e with
  | UploadFire _ r => random_value r
  | _ => True
  end.

(** Every closure of the upload simulation holds a progress between 0
    and 90, and the bar a width between 0 and 100. *)
Definition upload_progress_in_range (st : Upload.state) : Prop :=
  Forall (fun t => 0 <= progress t /\ progress t <= 90)%Q (Upload.timers st)
  /\ (0 <= Upload.progressBar st /\ Upload.progressBar st <= 100)%Q.

(** * Properties of configure.js *)

Section RunningTotal.

(** *** Doubles of integer value *)

Lemma round_exact (z : Z) : Z.abs z <= 2 ^ 53 -> round z = Num z.
Proof.
  intros H. unfold round.
  destruct (Z.ltb_spec (Z.abs z) (2 ^ 53)) as [_|Hge]; [reflexivity|].
  assert (Hz : Z.abs z = 2 ^ 53) by lia.
  destruct (Z.abs_eq_or_opp z) as [Heq|Heq]; rewrite Heq in Hz.
  - rewrite Hz. vm_compute. reflexivity.
  - replace z with (- 2 ^ 53) by lia. vm_compute. reflexivity.
Qed.

(** What is rounded stays at or above [2^53] in magnitude. *)
Lemma round_large (z : Z) :
  2 ^ 53 <= Z.abs z ->
  round z = Infinity \/ round z = NegInfinity
  \/ exists m, round z = Num m /\ 2 ^ 53 <= Z.abs m.
Proof.
  intros H. unfold round.
  destruct (Z.ltb_spec (Z.abs z) (2 ^ 53)) as [Hlt|_]; [lia|].
  set (n := Z.abs z) in *. set (s := Z.log2 n - 52).
  assert (Hlog : 53 <= Z.log2 n).
  { change 53 with (Z.log2 (2 ^ 53)). now apply Z.log2_le_mono. }
  assert (Hs : 1 <= s) by (unfold s; lia).
  assert (Hpow : 0 < 2 ^ s) by (apply Z.pow_pos_nonneg; lia).
  assert (Hq : 2 ^ 52 <= Z.shiftr n s).
  { rewrite Z.shiftr_div_pow2 by lia.
    apply Z.div_le_lower_bound; [exact Hpow|].
    rewrite Z.mul_comm, <- Z.pow_add_r by lia.
    replace (52 + s) with (Z.log2 n) by (unfold s; lia).
    apply Z.log2_spec. lia. }
  match goal with |- context [Z.shiftl ?q' s] => set (q := q') end.
  assert (Hq' : 2 ^ 52 <= q).
  { unfold q. destruct (_ || _); lia. }
  assert (Hm : 2 ^ 53 <= Z.shiftl q s).
  { rewrite Z.shiftl_mul_pow2 by lia.
    assert (2 ^ 1 <= 2 ^ s) by (apply Z.pow_le_mono_r; lia).
    change (2 ^ 53) with (2 ^ 52 * 2 ^ 1). nia. }
  destruct (_ <=? _).
  - destruct (z <? 0); auto.
  - right. right. eexists. split; [reflexivity|].
    rewrite Z.abs_mul.
    assert (Hsgn : Z.abs (Z.sgn z) = 1) by (unfold n in H; lia).
    rewrite Hsgn. lia.
Qed.

Lemma round_small_test (d : Z) :
  le (abs (round d)) (Num 5) = true <-> Z.abs d <= 5.
Proof.
  destruct (Z.le_gt_cases (Z.abs d) (2 ^ 53)) as [Hs|Hl].
  - rewrite round_exact by exact Hs. cbn. apply Z.leb_le.
  - destruct (round_large d) as [->|[->|(m & -> & Hm)]]; [lia|..]; cbn.
    + split; [discriminate|]. change (2 ^ 53) with 9007199254740992 in Hl. lia.
    + split; [discriminate|]. change (2 ^ 53) with 9007199254740992 in Hl. lia.
    + rewrite Z.leb_le. change (2 ^ 53) with 9007199254740992 in *. lia.
Qed.

Lemma round_large_test (d : Z) :
  gt (abs (round d)) (Num 5) = true <-> 5 < Z.abs d.
Proof.
  destruct (Z.le_gt_cases (Z.abs d) (2 ^ 53)) as [Hs|Hl].
  - rewrite round_exact by exact Hs. cbn. apply Z.ltb_lt.
  - destruct (round_large d) as [->|[->|(m & -> & Hm)]]; [lia|..]; cbn.
    + split; [|reflexivity]. change (2 ^ 53) with 9007199254740992 in Hl. lia.
    + split; [|reflexivity]. change (2 ^ 53) with 9007199254740992 in Hl. lia.
    + rewrite Z.ltb_lt. change (2 ^ 53) with 9007199254740992 in *. lia.
Qed.

(** *** The running total *)

Lemma reduce_marks_snoc (sets : list QuestionSet) (set : QuestionSet) :
  reduce_marks (sets ++ [set])
  = add (reduce_marks sets) (mul (marks set) (count set)).
Proof. unfold reduce_marks. now rewrite fold_left_app. Qed.

Lemma fits_doubles_sum (l : list Z) : Z.abs (sum l) <= foldr (fun z acc => Z.abs z + acc) 0 l.
Proof. unfold sum. induction l as [|z l IH]; cbn [foldr]; lia. Qed.

(** Within the doubles the left-to-right sum of the code is the exact
    sum. *)
Lemma fold_exact (sets : list QuestionSet) (l : list Z) (a : Z) :
  subtotals sets = Some l ->
  Z.abs a + foldr (fun z acc => Z.abs z + acc) 0 l <= 2 ^ 53 ->
  fold_left (fun sum set => add sum (mul (marks set) (count set))) sets (Num a)
  = Num (a + sum l).
Proof.
  revert l a. induction sets as [|set sets IH]; intros l a Hl Hfit.
  - injection Hl as <-. cbn. f_equal. lia.
  - cbn [subtotals] in Hl. unfold subtotal in Hl.
    destruct (marks set) as [m| | |] eqn:Hm; try discriminate.
    destruct (count set) as [c| | |] eqn:Hc; try discriminate.
    destruct (subtotals sets) as [l'|] eqn:Hl'; [|discriminate].
    injection Hl as <-. cbn [foldr sum] in *. cbn [fold_left].
    rewrite Hm, Hc. cbn [mul add].
    pose proof (fits_doubles_sum l').
    assert (H0 : 0 <= foldr (fun z acc => Z.abs z + acc) 0 l')
      by (clear; induction l'; cbn; lia).
    rewrite (round_exact (m * c)) by lia. cbn [add].
    rewrite (round_exact (a + m * c)) by lia.
    rewrite (IH l' (a + m * c) eq_refl) by lia.
    f_equal. fold (sum l'). lia.
Qed.

Lemma reduce_exact (sets : list QuestionSet) (l : list Z) :
  subtotals sets = Some l -> fits_doubles l -> reduce_marks sets = Num (sum l).
Proof.
  intros Hl Hfit. unfold reduce_marks.
  rewrite (fold_exact sets l 0 Hl) by (unfold fits_doubles in Hfit; lia).
  reflexivity.
Qed.

Lemma updateMarksValidation_model st :
  questionSets (updateMarksValidation st) = questionSets st
  /\ totalMarks (updateMarksValidation st) = totalMarks st.
Proof.
  unfold updateMarksValidation.
  destruct (totalMarksDisplay st); [|easy].
  destruct (within_tolerance _ _); easy.
Qed.

Lemma updateTotalMarks_model st :
  questionSets (updateTotalMarks st) = questionSets st
  /\ totalMarks (updateTotalMarks st) = reduce_marks (questionSets st).
Proof.
  unfold updateTotalMarks.
  match goal with |- context [updateMarksValidation ?s] =>
    destruct (updateMarksValidation_model s) as [-> ->] end.
  simpl. destruct (totalMarksDisplay st); easy.
Qed.

Lemma updateTotalMarks_in_step st : total_in_step (updateTotalMarks st).
Proof.
  unfold total_in_step.
  destruct (updateTotalMarks_model st) as [-> ->]. reflexivity.
Qed.

Lemma handleSubmit_model st :
  questionSets (handleSubmit st) = questionSets st
  /\ totalMarks (handleSubmit st) = totalMarks st.
Proof.
  unfold handleSubmit.
  destruct (session_id st) as [[|c sid]|]; try easy.
  destruct (length (questionSets st) =? 0)%nat; [easy|].
  destruct (exceeds_tolerance _ _); [easy|].
  destruct (loading st); easy.
Qed.

Lemma step_in_step a st : total_in_step st -> total_in_step (step a st).
Proof.
  intros H. destruct a as [|i p|i|v|]; simpl.
  - unfold addQuestionSet. destruct (negb _); [exact H|].
    apply updateTotalMarks_in_step.
  - unfold updateQuestionSet. destruct (at_index _ _); [|exact H].
    apply updateTotalMarks_in_step.
  - unfold removeQuestionSet. destruct (_ <=? _)%nat; [exact H|].
    apply updateTotalMarks_in_step.
  - unfold total_in_step in *.
    destruct (updateMarksValidation_model (set_total_marks v st)) as [-> ->].
    exact H.
  - unfold total_in_step in *.
    destruct (handleSubmit_model st) as [-> ->]. exact H.
Qed.

Lemma run_in_step acts st : total_in_step st -> total_in_step (run acts st).
Proof.
  revert st. induction acts as [|a acts IH]; intros st H; simpl; [exact H|].
  apply IH, step_in_step, H.
Qed.

Lemma init_in_step p : total_in_step (init p).
Proof.
  unfold init, addQuestionSet.
  destruct (negb _); [reflexivity|]. apply updateTotalMarks_in_step.
Qed.

(** C2, as stated, fails beyond the doubles: with marks 1 and counts
    9007199254740992, 1 and 1 the subtotals add up to 9007199254740994,
    and the running total is 9007199254740992. *)
Lemma running_total_misses_sum_of_huge_counts :
  subtotals (questionSets huge_count) = Some [9007199254740992; 1; 1]
  /\ sum [9007199254740992; 1; 1] = 9007199254740994
  /\ totalMarks huge_count = Num 9007199254740992
  /\ totalMarks huge_count <> Num (sum [9007199254740992; 1; 1]).
Proof. vm_compute. repeat split. discriminate. Qed.

(** C2, amended.  After the page has loaded and after any sequence of
    additions, field updates, removals, target changes and
    submissions, the maintained running total [totalMarks] is the
    left-to-right sum, in doubles, of marks per question times count
    over exactly the question sets then in the list: every mutation of
    the list recomputes it.  It equals the exact sum of the subtotals
    whenever marks and counts are finite and the magnitudes of the
    subtotals add up to no more than [2^53]. *)
Theorem running_total_is_sum_within_doubles (p : state) (acts : list action)
    (l : list Z) :
  totalMarks (run acts (init p)) = reduce_marks (questionSets (run acts (init p)))
  /\ (subtotals (questionSets (run acts (init p))) = Some l ->
      fits_doubles l ->
      totalMarks (run acts (init p)) = Num (sum l)).
Proof.
  assert (H : total_in_step (run acts (init p))) by apply run_in_step, init_in_step.
  split; [exact H|]. intros Hl Hfit. rewrite H. now apply reduce_exact.
Qed.

Lemma running_total_is_sum_within_doubles_witness :
  totalMarks short_5_4 = Num (sum [20]).
Proof.
  refine (proj2 (running_total_is_sum_within_doubles sample_page
                   [Update 0 (p_count (parseInt "4")); ChangeTarget "20"] [20]) _ _).
  - reflexivity.
  - unfold fits_doubles. vm_compute. discriminate.
Defined.

End RunningTotal.

Section QuestionSetList.

(** C4. When exactly one question set remains, [removeQuestionSet]
    only shows the error notification: the list of question sets, and
    so its length, is unchanged, and so is the running total. *)
Theorem remove_sole_set_rejected (st : state) (setIndex : Z) :
  length (questionSets st) = 1%nat ->
  removeQuestionSet setIndex st
  = showNotification "At least one question set is required." Error st
  /\ questionSets (removeQuestionSet setIndex st) = questionSets st
  /\ length (questionSets (removeQuestionSet setIndex st)) = 1%nat
  /\ totalMarks (removeQuestionSet setIndex st) = totalMarks st
  /\ notifications (removeQuestionSet setIndex st)
     = notifications st ++ [("At least one question set is required.", Error)].
Proof.
  intros Hlen. unfold removeQuestionSet. rewrite Hlen. simpl.
  repeat split; try reflexivity. exact Hlen.
Qed.

Lemma remove_sole_set_rejected_witness :
  questionSets (removeQuestionSet 0 (init sample_page))
  = questionSets (init sample_page).
Proof.
  exact (proj1 (proj2 (remove_sole_set_rejected (init sample_page) 0 eq_refl))).
Defined.

(** The same rejection applies to a list that is already empty. *)
Lemma remove_from_empty_rejected (st : state) (setIndex : Z) :
  questionSets st = [] ->
  removeQuestionSet setIndex st
  = showNotification "At least one question set is required." Error st.
Proof. intros H. unfold removeQuestionSet. now rewrite H. Qed.

Lemma removeQuestionSet_sets (st : state) (setIndex : Z) :
  questionSets (removeQuestionSet setIndex st)
  = if (length (questionSets st) <=? 1)%nat then questionSets st
    else filter (fun set => id set ≠ setIndex) (questionSets st).
Proof.
  unfold removeQuestionSet. destruct (_ <=? _)%nat; [reflexivity|].
  now destruct (updateTotalMarks_model
    (set_questionSets (filter (fun set => id set ≠ setIndex) (questionSets st)) st))
    as [-> _].
Qed.

Lemma addQuestionSet_sets (st : state) :
  questionSetsContainer st = true ->
  questionSets (addQuestionSet st)
  = questionSets st
    ++ [{| id := Z.of_nat (length (questionSets st)); type := short;
           marks := Num 5; count := Num 1 |}].
Proof.
  intros H. unfold addQuestionSet. rewrite H. simpl.
  match goal with |- context [updateTotalMarks ?s] =>
    now destruct (updateTotalMarks_model s) as [-> _] end.
Qed.

Lemma updateMarksValidation_container st :
  questionSetsContainer (updateMarksValidation st) = questionSetsContainer st.
Proof.
  unfold updateMarksValidation.
  destruct (totalMarksDisplay st); [|reflexivity].
  destruct (within_tolerance _ _); reflexivity.
Qed.

Lemma updateTotalMarks_container st :
  questionSetsContainer (updateTotalMarks st) = questionSetsContainer st.
Proof.
  unfold updateTotalMarks. rewrite updateMarksValidation_container.
  simpl. destruct (totalMarksDisplay st); reflexivity.
Qed.

Lemma container_kept a st :
  questionSetsContainer (step a st) = questionSetsContainer st.
Proof.
  destruct a as [|i p|i|v|]; simpl.
  - unfold addQuestionSet. destruct (negb _); [reflexivity|].
    now rewrite updateTotalMarks_container.
  - unfold updateQuestionSet. destruct (at_index _ _); [|reflexivity].
    now rewrite updateTotalMarks_container.
  - unfold removeQuestionSet. destruct (_ <=? _)%nat; [reflexivity|].
    now rewrite updateTotalMarks_container.
  - now rewrite updateMarksValidation_container.
  - unfold handleSubmit.
    destruct (session_id st) as [[|c sid]|]; try reflexivity.
    destruct (_ =? _)%nat; [reflexivity|].
    destruct (exceeds_tolerance _ _); [reflexivity|].
    destruct (loading st); reflexivity.
Qed.

(** C6. With more than one set in the list, [removeQuestionSet] keeps
    exactly the sets whose id differs from its argument, wherever they
    stand.  On any page that has the container, loading, removing set
    0 of two and adding a set again gives two live sets with id 1, and
    one [removeQuestionSet(1)] then removes both and leaves the list
    empty. *)
Theorem remove_filters_by_id :
  (forall (st : state) (setIndex : Z),
      (1 < length (questionSets st))%nat ->
      questionSets (removeQuestionSet setIndex st)
      = filter (fun set => id set ≠ setIndex) (questionSets st))
  /\ (forall p : state,
        questionSetsContainer p = true ->
        let st := run [Add; Remove 0; Add] (init p) in
        map id (questionSets st) = [1; 1]
        /\ questionSets (removeQuestionSet 1 st) = []).
Proof.
  split.
  - intros st i Hlen. rewrite removeQuestionSet_sets.
    destruct (Nat.leb_spec (length (questionSets st)) 1); [lia|reflexivity].
  - intros p Hp. cbn zeta.
    assert (H0 : questionSets (init p)
                 = [{| id := 0; type := short; marks := Num 5; count := Num 1 |}]).
    { unfold init. now rewrite addQuestionSet_sets. }
    assert (C0 : questionSetsContainer (init p) = true).
    { unfold init. now rewrite (container_kept Add). }
    assert (H1 : questionSets (run [Add] (init p))
                 = [{| id := 0; type := short; marks := Num 5; count := Num 1 |};
                    {| id := 1; type := short; marks := Num 5; count := Num 1 |}]).
    { simpl. rewrite addQuestionSet_sets by exact C0. now rewrite H0. }
    assert (C1 : questionSetsContainer (run [Add] (init p)) = true).
    { simpl. now rewrite (container_kept Add). }
    assert (H2 : questionSets (run [Add; Remove 0] (init p))
                 = [{| id := 1; type := short; marks := Num 5; count := Num 1 |}]).
    { change (run [Add; Remove 0] (init p))
        with (removeQuestionSet 0 (run [Add] (init p))).
      rewrite removeQuestionSet_sets, H1. reflexivity. }
    assert (C2 : questionSetsContainer (run [Add; Remove 0] (init p)) = true).
    { change (run [Add; Remove 0] (init p))
        with (step (Remove 0) (run [Add] (init p))).
      now rewrite container_kept. }
    assert (H3 : questionSets (run [Add; Remove 0; Add] (init p))
                 = [{| id := 1; type := short; marks := Num 5; count := Num 1 |};
                    {| id := 1; type := short; marks := Num 5; count := Num 1 |}]).
    { change (run [Add; Remove 0; Add] (init p))
        with (addQuestionSet (run [Add; Remove 0] (init p))).
      rewrite addQuestionSet_sets by exact C2. now rewrite H2. }
    split.
    + now rewrite H3.
    + rewrite removeQuestionSet_sets, H3. reflexivity.
Qed.

Lemma remove_filters_by_id_witness :
  map id (questionSets (run [Add; Remove 0; Add] (init sample_page))) = [1; 1]
  /\ questionSets (removeQuestionSet 1 (run [Add; Remove 0; Add] (init sample_page))) = []
  /\ questionSets (removeQuestionSet 0 (run [Add] (init sample_page)))
     = filter (fun set => id set ≠ 0) (questionSets (run [Add] (init sample_page))).
Proof.
  destruct remove_filters_by_id as [Hfilter Hreach].
  destruct (Hreach sample_page eq_refl) as [Hids Hempty].
  split; [exact Hids|]. split; [exact Hempty|].
  apply Hfilter. vm_compute. lia.
Defined.

End QuestionSetList.

Section Identifiers.

Lemma updateQuestionSet_sets (st : state) (setIndex : Z) (p : property) :
  questionSets (updateQuestionSet setIndex p st)
  = match at_index (questionSets st) setIndex with
    | Some set => <[Z.to_nat setIndex := assign p set]> (questionSets st)
    | None => questionSets st
    end.
Proof.
  unfold updateQuestionSet. destruct (at_index _ _) as [set|]; [|reflexivity].
  match goal with |- context [updateTotalMarks ?s] =>
    now destruct (updateTotalMarks_model s) as [-> _] end.
Qed.

(** The set an update reaches is the one standing at position
    [setIndex], whatever its id. *)
Lemma updateQuestionSet_by_position (st : state) (setIndex : Z) (p : property) set :
  0 <= setIndex ->
  questionSets st !! Z.to_nat setIndex = Some set ->
  questionSets (updateQuestionSet setIndex p st) !! Z.to_nat setIndex
  = Some (assign p set).
Proof.
  intros Hpos Hset. rewrite updateQuestionSet_sets. unfold at_index.
  destruct (Z.ltb_spec setIndex 0); [lia|]. rewrite Hset.
  apply list_lookup_insert_eq. eapply lookup_lt_Some, Hset.
Qed.


Lemma ids_are_positions_add (st : state) :
  ids_are_positions (questionSets st) ->
  ids_are_positions (questionSets (addQuestionSet st)).
Proof.
  intros Hids. unfold addQuestionSet.
  destruct (negb _); [exact Hids|].
  match goal with |- context [updateTotalMarks ?s] =>
    destruct (updateTotalMarks_model s) as [-> _] end.
  cbn. intros k set Hk.
  apply lookup_app_Some in Hk. destruct Hk as [Hl|[Hlen Hr]]; [now apply Hids|].
  destruct (k - length (questionSets st))%nat as [|j] eqn:Hj; [|discriminate].
  cbn in Hr. injection Hr as <-. cbn. lia.
Qed.


(** A removal breaks it: the survivors move down and keep their ids. *)
Lemma ids_not_positions_after_removal :
  ids_are_positions (questionSets (run [Add] (init sample_page)))
  /\ ~ ids_are_positions (questionSets (run [Add; Remove 0] (init sample_page))).
Proof.
  split.
  - apply (ids_are_positions_add (init sample_page)).
    apply (ids_are_positions_add (loaded sample_page)).
    intros k set Hk. destruct k; discriminate.
  - intros H. specialize (H 0%nat _ eq_refl). discriminate.
Qed.

(** C5. After loading, two additions and the removal of set 0, the
    live sets have ids 1 and 2.  [updateQuestionSet(1, 'count', 4)]
    then changes the set with id 2 and leaves the set with id 1 as it
    was; [updateQuestionSet(2, 'count', 4)] changes nothing although a
    set with id 2 is live; and a further addition hands out id 2 a
    second time. *)
Theorem update_reaches_position_not_id :
  let st := run [Add; Add; Remove 0] (init sample_page) in
  questionSets st
  = [{| id := 1; type := short; marks := Num 5; count := Num 1 |};
     {| id := 2; type := short; marks := Num 5; count := Num 1 |}]
  /\ questionSets (updateQuestionSet 1 (p_count (Num 4)) st)
     = [{| id := 1; type := short; marks := Num 5; count := Num 1 |};
        {| id := 2; type := short; marks := Num 5; count := Num 4 |}]
  /\ questionSets (updateQuestionSet 2 (p_count (Num 4)) st) = questionSets st
  /\ map id (questionSets (addQuestionSet st)) = [1; 2; 2].
Proof. vm_compute. repeat split. Qed.

End Identifiers.

Section Tolerance.

Lemma within_tolerance_integers (t g : Z) :
  within_tolerance (Num t) (Num g) = true <-> Z.abs (t - g) <= 5.
Proof. unfold within_tolerance. cbn [sub]. apply round_small_test. Qed.

Lemma exceeds_tolerance_integers (t g : Z) :
  exceeds_tolerance (Num t) (Num g) = true <-> 5 < Z.abs (t - g).
Proof. unfold exceeds_tolerance. cbn [sub]. apply round_large_test. Qed.

(** On integers the test of the indicator and the test of the
    submission are each other's negation. *)
Lemma tests_agree_on_integers (t g : Z) :
  exceeds_tolerance (Num t) (Num g) = negb (within_tolerance (Num t) (Num g)).
Proof.
  pose proof (within_tolerance_integers t g) as Hw.
  pose proof (exceeds_tolerance_integers t g) as He.
  destruct (exceeds_tolerance _ _), (within_tolerance _ _); cbn; try reflexivity.
  - destruct Hw as [Hw _], He as [He _]. specialize (Hw eq_refl). specialize (He eq_refl). lia.
  - destruct (Z.le_gt_cases (Z.abs (t - g)) 5) as [H|H].
    + destruct Hw as [_ Hw]. now specialize (Hw H).
    + destruct He as [_ He]. assert (5 < Z.abs (t - g)) as H' by lia. now specialize (He H').
Qed.

Lemma tolerance_boundary (g : Z) :
  within_tolerance (Num (g + 5)) (Num g) = true
  /\ within_tolerance (Num (g - 5)) (Num g) = true
  /\ within_tolerance (Num (g + 6)) (Num g) = false
  /\ within_tolerance (Num (g - 6)) (Num g) = false.
Proof.
  repeat split.
  - apply within_tolerance_integers. lia.
  - apply within_tolerance_integers. lia.
  - destruct (within_tolerance _ _) eqn:E; [|reflexivity].
    apply within_tolerance_integers in E. lia.
  - destruct (within_tolerance _ _) eqn:E; [|reflexivity].
    apply within_tolerance_integers in E. lia.
Qed.

(** On [NaN] both tests are false. *)
Lemma tests_on_NaN (g : number) :
  within_tolerance NaN g = false /\ exceeds_tolerance NaN g = false.
Proof. split; reflexivity. Qed.

(** The indicator follows [within_tolerance]. *)
Lemma indicator_follows_within_tolerance (st : state) (d : display) :
  totalMarksDisplay st = Some d ->
  className <$> totalMarksDisplay (updateMarksValidation st)
  = Some (if within_tolerance (totalMarks st) (parseInt (total_marks st))
          then green else red).
Proof.
  intros Hd. unfold updateMarksValidation. rewrite Hd.
  destruct (within_tolerance _ _); reflexivity.
Qed.

End Tolerance.

Section Submission.

Lemma append_assoc (a b c : string) : (a +:+ b) +:+ c = a +:+ b +:+ c.
Proof.
  induction a as [|x a IH]; [reflexivity|].
  change (String x ((a +:+ b) +:+ c) = String x (a +:+ b +:+ c)).
  now rewrite IH.
Qed.

Lemma stringify_set (set : QuestionSet) :
  stringify
    (JObject [("type", JString (qtype_value (type set)));
              ("marks", JNumber (marks set));
              ("count", JNumber (count set))])
  = set_document set.
Proof.
  unfold set_document.
  destruct set as [i t m c]; cbn [type marks count].
  change (stringify (JNumber m)) with (stringify_number m).
  cbn [stringify map fst snd].
  generalize (stringify_number m) (stringify_number c). intros M C.
  cbn [String.concat]. rewrite !append_assoc.
  destruct t; reflexivity.
Qed.

Lemma stringify_questionConfig (sets : list QuestionSet) :
  stringify (questionConfig sets) = question_config_document sets.
Proof.
  unfold questionConfig, question_config_document.
  cbn [stringify map fst snd].
  rewrite map_map.
  rewrite (map_ext _ set_document) by (intros set; apply stringify_set).
  generalize (String.concat "," (map set_document sets)). intros X.
  cbn [String.concat]. rewrite !append_assoc.
  reflexivity.
Qed.

Lemma showNotification_effect (m : string) (k : kind) (st : state) :
  requests (showNotification m k st) = requests st
  /\ notifications (showNotification m k st) = notifications st ++ [(m, k)]
  /\ questionSets (showNotification m k st) = questionSets st.
Proof. repeat split. Qed.

(** The three guards of [handleSubmit], in the order it tries them,
    and what it does past them. *)
Lemma handleSubmit_cases (st : state) :
  (session_id st = None \/ session_id st = Some EmptyString) /\
    handleSubmit st = showNotification "Session expired. Please start over." Error st
  \/ (exists sid, session_id st = Some sid /\ sid <> EmptyString) /\
     questionSets st = [] /\
     handleSubmit st = showNotification "Please add at least one question set." Error st
  \/ (exists sid, session_id st = Some sid /\ sid <> EmptyString) /\
     questionSets st <> [] /\
     exceeds_tolerance (totalMarks st) (parseInt (total_marks st)) = true /\
     handleSubmit st
     = showNotification
         (tolerance_message (totalMarks st) (parseInt (total_marks st))) Error st
  \/ (exists sid, session_id st = Some sid /\ sid <> EmptyString /\
        requests (handleSubmit st)
        = requests st ++ [{| url := "/generate/" +:+ sid; formData := form_entries st |}]) /\
     questionSets st <> [] /\
     exceeds_tolerance (totalMarks st) (parseInt (total_marks st)) = false /\
     notifications (handleSubmit st) = notifications st.
Proof.
  unfold handleSubmit.
  destruct (session_id st) as [[|c sid]|] eqn:Hsid.
  { left. split; [right|]; reflexivity. }
  2: { left. split; [left|]; reflexivity. }
  right.
  assert (Hex : exists s, Some (String c sid) = Some s /\ s <> EmptyString)
    by (eexists; split; [reflexivity|discriminate]).
  destruct (questionSets st) as [|set sets] eqn:Hsets.
  { left. split; [exact Hex|]. split; reflexivity. }
  right. cbn [length Nat.eqb].
  destruct (exceeds_tolerance _ _) eqn:Hgate.
  - left. split; [exact Hex|]. split; [discriminate|]. split; reflexivity.
  - right. split.
    + exists (String c sid). split; [reflexivity|]. split; [discriminate|].
      unfold form_entries. rewrite Hsets, <- stringify_questionConfig.
      destruct (loading st); reflexivity.
    + split; [discriminate|]. split; [reflexivity|].
      destruct (loading st); reflexivity.
Qed.

(** With an integer total and an integer target, a total more than 5
    away from the target stops the submission. *)
Lemma handleSubmit_rejects_integer_total (st : state) (sid : string) (t g : Z) :
  session_id st = Some sid -> sid <> EmptyString -> questionSets st <> [] ->
  totalMarks st = Num t -> parseInt (total_marks st) = Num g ->
  5 < Z.abs (t - g) ->
  handleSubmit st = showNotification (tolerance_message (Num t) (Num g)) Error st
  /\ requests (handleSubmit st) = requests st.
Proof.
  intros Hsid Hne Hsets Ht Hg Hfar.
  apply exceeds_tolerance_integers in Hfar.
  destruct (handleSubmit_cases st)
    as [[[H|H] _]|[[_ [H _]]|[[_ [_ [_ H]]]|[_ [_ [H _]]]]]];
    try congruence.
  - rewrite H, Ht, Hg. split; reflexivity.
Qed.

(** On a page whose subtotals fit the doubles, and with an integer
    target, a request is sent only past all three preconditions. *)
Lemma submit_on_integer_page (p : state) (acts : list action) (l : list Z) (g : Z) :
  subtotals (questionSets (run acts (init p))) = Some l ->
  fits_doubles l ->
  parseInt (total_marks (run acts (init p))) = Num g ->
  totalMarks (run acts (init p)) = Num (sum l)
  /\ (requests (handleSubmit (run acts (init p))) <> requests (run acts (init p)) ->
      (exists sid, session_id (run acts (init p)) = Some sid /\ sid <> EmptyString)
      /\ questionSets (run acts (init p)) <> []
      /\ Z.abs (sum l - g) <= 5).
Proof.
  intros Hl Hfit Hg.
  assert (Ht : totalMarks (run acts (init p)) = Num (sum l)).
  { rewrite (run_in_step acts (init p) (init_in_step p)). now apply reduce_exact. }
  split; [exact Ht|]. intros Hsent.
  destruct (handleSubmit_cases (run acts (init p)))
    as [[_ H]|[[_ [_ H]]|[[_ [_ [_ H]]]|[[sid [Hsid [Hne _]]] [Hsets [Hgate _]]]]]];
    try (exfalso; apply Hsent; rewrite H; reflexivity).
  split; [now exists sid|]. split; [exact Hsets|].
  rewrite Ht, Hg, tests_agree_on_integers in Hgate.
  apply within_tolerance_integers.
  now destruct (within_tolerance (Num (sum l)) (Num g)).
Qed.

End Submission.

Section SubmissionClaims.

(** C1. [count_emptied] is the page after the user has emptied the
    count field of the only question set.  Its total is [NaN], so the
    total is not within 5 of the target 100; yet [handleSubmit] shows
    no notification and sends the request. *)
Theorem submit_not_stopped_by_NaN_total :
  questionSets count_emptied
  = [{| id := 0; type := short; marks := Num 5; count := NaN |}]
  /\ totalMarks count_emptied = NaN
  /\ session_id count_emptied = Some "abc"
  /\ parseInt (total_marks count_emptied) = Num 100
  /\ within_tolerance (totalMarks count_emptied)
       (parseInt (total_marks count_emptied)) = false
  /\ notifications (handleSubmit count_emptied) = []
  /\ map url (requests (handleSubmit count_emptied)) = ["/generate/abc"].
Proof. vm_compute. repeat split. Qed.

(** C3. On the same page the indicator shows failure (the red class)
    while the test that guards submission does not fire, and the
    request is sent: the two tests differ on a [NaN] total. *)
Theorem indicator_fails_where_submission_passes :
  className <$> totalMarksDisplay count_emptied = Some red
  /\ className <$> totalMarksDisplay (updateMarksValidation count_emptied) = Some red
  /\ exceeds_tolerance (totalMarks count_emptied)
       (parseInt (total_marks count_emptied)) = false
  /\ length (requests (handleSubmit count_emptied))
     = S (length (requests count_emptied)).
Proof. vm_compute. repeat split. Qed.

Lemma question_config_document_fields (sets sets' : list QuestionSet) :
  map (fun set => (type set, marks set, count set)) sets
  = map (fun set => (type set, marks set, count set)) sets' ->
  question_config_document sets = question_config_document sets'.
Proof.
  intros H. unfold question_config_document. do 2 f_equal.
  assert (Hdoc : forall l : list QuestionSet,
             map set_document l
             = map (fun q : qtype * number * number =>
                      set_document {| id := 0; type := q.1.1; marks := q.1.2; count := q.2 |})
                   (map (fun set => (type set, marks set, count set)) l)).
  { intros l. rewrite map_map. apply map_ext. intros set. reflexivity. }
  now rewrite (Hdoc sets), (Hdoc sets'), H.
Qed.

(** C7. Whenever [handleSubmit] sends a request, the [FormData] ends
    with the field [question_config] holding the JSON document
    [{"question_sets":[...]}] that lists, for each live set in order,
    its type, marks and count.  The document is the same for two lists
    that differ only in ids.  For the single set (short, 5 marks,
    count 4) with target 20 it is
    [{"question_sets":[{"type":"short","marks":5,"count":4}]}]. *)
Theorem question_config_serialized :
  (forall st : state,
      requests (handleSubmit st) <> requests st ->
      exists sid,
        session_id st = Some sid
        /\ requests (handleSubmit st)
           = requests st
             ++ [{| url := "/generate/" +:+ sid;
                    formData :=
                      [("title", value_or (title st) "Generated Paper");
                       ("subject", value_or (subject st) "General Subject");
                       ("total_marks", value_or (total_marks st) "100");
                       ("difficulty", value_or (difficulty st) "5");
                       ("priority_topics", priority_topics st);
                       ("instructions", instructions st);
                       ("question_config",
                        question_config_document (questionSets st))] |}])
  /\ (forall sets sets' : list QuestionSet,
        map (fun set => (type set, marks set, count set)) sets
        = map (fun set => (type set, marks set, count set)) sets' ->
        question_config_document sets = question_config_document sets')
  /\ questionSets short_5_4
     = [{| id := 0; type := short; marks := Num 5; count := Num 4 |}]
  /\ totalMarks short_5_4 = Num 20
  /\ map (fun r => last (formData r)) (requests (handleSubmit short_5_4))
     = [Some ("question_config",
              json_text "{'question_sets':[{'type':'short','marks':5,'count':4}]}")].
Proof.
  split; [|split; [exact question_config_document_fields|]].
  - intros st Hsent.
    destruct (handleSubmit_cases st)
      as [[_ H]|[[_ [_ H]]|[[_ [_ [_ H]]]|[[sid [Hsid [_ H]]] _]]]];
      try (exfalso; apply Hsent; rewrite H; reflexivity).
    exists sid. split; [exact Hsid|exact H].
  - vm_compute. repeat split.
Qed.

Lemma question_config_serialized_witness :
  exists sid,
    session_id short_5_4 = Some sid
    /\ requests (handleSubmit short_5_4)
       = requests short_5_4
         ++ [{| url := "/generate/" +:+ sid;
                formData :=
                  [("title", value_or (title short_5_4) "Generated Paper");
                   ("subject", value_or (subject short_5_4) "General Subject");
                   ("total_marks", value_or (total_marks short_5_4) "100");
                   ("difficulty", value_or (difficulty short_5_4) "5");
                   ("priority_topics", priority_topics short_5_4);
                   ("instructions", instructions short_5_4);
                   ("question_config",
                    question_config_document (questionSets short_5_4))] |}].
Proof.
  apply (proj1 question_config_serialized short_5_4).
  vm_compute. discriminate.
Defined.

End SubmissionClaims.

(** * Properties of upload.js *)

Section UploadClaims.
Import Upload.

(** The chain never looks at the HTTP status or its text. *)
Lemma upload_settle_ignores_http_status (i : nat) (s s' : Z) (txt txt' : string)
    (b : body) (st : Upload.state) :
  Upload.settle i (Response s txt b) st = Upload.settle i (Response s' txt' b) st.
Proof. destruct b; reflexivity. Qed.

(** The generation request, for comparison, fails every response that
    is not 2xx before its body is read. *)
Lemma generation_fails_non_ok (i : nat) (s : Z) (txt : string) (b : body)
    (st : Configure.state) :
  ok s = false ->
  Configure.settle i (Response s txt b) st
  = Configure.on_error i ("HTTP " +:+ toString (Num s) +:+ ": " +:+ txt) st.
Proof. intros H. unfold Configure.settle. now rewrite H. Qed.

(** C8. The upload request is answered with HTTP 500 and a body that
    parses to [{status: "success", redirect: "/configure/abc"}].  The
    response is not OK, yet the chain of [uploadFiles] takes the
    success path: success notification, no failure notification,
    redirect scheduled, progress left visible, button left disabled. *)
Theorem upload_non_ok_takes_success_path :
  let st := Upload.settle 0
              (Response 500 "Internal Server Error" (Parsed declared_success))
              uploading in
  ok 500 = false
  /\ Upload.notifications st = [("Files uploaded successfully!", Success)]
  /\ Upload.scheduled st = [(1000, Some "/configure/abc")]
  /\ uploadProgress_hidden st = false
  /\ uploadBtn_disabled st = true.
Proof. vm_compute. repeat split. Qed.

Lemma splice_past_end {A : Type} (l : list A) (index : Z) :
  Z.of_nat (length l) <= index -> splice index 1 l = l.
Proof.
  intros H. unfold splice.
  destruct (Z.ltb_spec index 0); [lia|].
  rewrite Z.min_r by lia.
  replace (Z.min (Z.max 1 0) (Z.of_nat (length l) - Z.of_nat (length l))) with 0 by lia.
  rewrite Z.add_0_r, Nat2Z.id. apply take_drop.
Qed.

Lemma splice_negative {A : Type} (l : list A) (index : Z) :
  index < 0 -> l <> [] ->
  let k := Z.to_nat (Z.max (Z.of_nat (length l) + index) 0) in
  splice index 1 l = take k l ++ drop (S k) l /\ (k < length l)%nat.
Proof.
  intros Hneg Hl. cbn zeta. unfold splice.
  assert (0 < length l)%nat by (destruct l; [congruence|simpl; lia]).
  destruct (Z.ltb_spec index 0); [|lia].
  set (s := Z.max (Z.of_nat (length l) + index) 0).
  assert (0 <= s <= Z.of_nat (length l) - 1) by lia.
  replace (Z.min (Z.max 1 0) (Z.of_nat (length l) - s)) with 1 by lia.
  replace (Z.to_nat (s + 1)) with (S (Z.to_nat s)) by lia.
  split; [reflexivity|lia].
Qed.

(** C9. [removeFile(index)] with [index] at or past the length of the
    selection leaves the selection as it is, shows no notification
    and sends nothing.  With a negative [index] and a non-empty
    selection it removes one file: the one [-index] places from the
    end, or the first one when [index] reaches further back than the
    selection is long. *)
Theorem removeFile_out_of_range (st : Upload.state) (index : Z) :
  (Z.of_nat (length (selectedFiles st)) <= index ->
     selectedFiles (removeFile index st) = selectedFiles st
     /\ Upload.notifications (removeFile index st) = Upload.notifications st
     /\ Upload.requests (removeFile index st) = Upload.requests st)
  /\ (index < 0 -> selectedFiles st <> [] ->
      let k := Z.to_nat (Z.max (Z.of_nat (length (selectedFiles st)) + index) 0) in
      selectedFiles (removeFile index st)
      = take k (selectedFiles st) ++ drop (S k) (selectedFiles st)
      /\ S (length (selectedFiles (removeFile index st))) = length (selectedFiles st)
      /\ Upload.notifications (removeFile index st) = Upload.notifications st).
Proof.
  split.
  - intros H. unfold removeFile. cbn.
    rewrite splice_past_end by exact H. repeat split.
  - intros Hneg Hl. cbn zeta. unfold removeFile. cbn.
    destruct (splice_negative (selectedFiles st) index Hneg Hl) as [-> Hk].
    split; [reflexivity|]. split; [|reflexivity].
    rewrite length_app, length_take, length_drop. lia.
Qed.

Lemma removeFile_out_of_range_witness :
  selectedFiles (removeFile 2 uploading) = [notes_pdf; scan_png]
  /\ selectedFiles (removeFile (-1) uploading) = [notes_pdf]
  /\ selectedFiles (removeFile (-5) uploading) = [scan_png].
Proof.
  split; [|split].
  - apply (proj1 (removeFile_out_of_range uploading 2)). vm_compute. discriminate.
  - apply (proj2 (removeFile_out_of_range uploading (-1))); [lia|discriminate].
  - apply (proj2 (removeFile_out_of_range uploading (-5))); [lia|discriminate].
Defined.

(** A negative index is not a no-op: [removeFile(-1)] on two selected
    files removes the second. *)
Lemma removeFile_negative_index_removes :
  selectedFiles uploading = [notes_pdf; scan_png]
  /\ selectedFiles (removeFile (-1) uploading) = [notes_pdf]
  /\ selectedFiles (removeFile (-1) uploading) <> selectedFiles uploading.
Proof. vm_compute. repeat split. discriminate. Qed.

End UploadClaims.

(** * The progress simulations *)

Section ProgressSimulation.
Local Open Scope Q_scope.

Lemma advance_bounds (step ceiling r p : Q) :
  0 <= step -> random_value r -> p <= ceiling ->
  p <= advance step ceiling r p
  /\ advance step ceiling r p <= ceiling
  /\ advance step ceiling r p <= p + step.
Proof.
  intros Hstep [Hr0 Hr1] Hp. unfold advance.
  assert (Hd0 : 0 <= r * step) by (apply Qmult_le_0_compat; assumption).
  assert (Hd1 : r * step <= step).
  { apply Qle_trans with (1 * step).
    - apply Qmult_le_compat_r; [apply Qlt_le_weak, Hr1|exact Hstep].
    - rewrite Qmult_1_l. apply Qle_refl. }
  generalize dependent (r * step). intros d Hd0 Hd1.
  destruct (Qle_bool (p + d) ceiling) eqn:E; cbn [negb].
  - apply Qle_bool_iff in E. repeat split; lra.
  - assert (~ p + d <= ceiling) by (rewrite <- Qle_bool_iff, E; discriminate).
    repeat split; lra.
Qed.

Lemma simulate_app step ceiling rs rs' p :
  simulate step ceiling (rs ++ rs') p
  = simulate step ceiling rs' (simulate step ceiling rs p).
Proof. apply fold_left_app. Qed.

Lemma simulate_bounds (step ceiling : Q) (rs : list Q) (p : Q) :
  0 <= step -> Forall random_value rs -> p <= ceiling ->
  p <= simulate step ceiling rs p /\ simulate step ceiling rs p <= ceiling.
Proof.
  intros Hstep Hrs. revert p.
  induction Hrs as [|r rs Hr Hrs IH]; intros p Hp; cbn.
  - split; [apply Qle_refl|exact Hp].
  - destruct (advance_bounds step ceiling r p Hstep Hr Hp) as (Hup & Hceil & _).
    destruct (IH _ Hceil) as [Hmono Hbound].
    split; [eapply Qle_trans; eassumption|exact Hbound].
Qed.

(** One more firing of the interval: the value does not go down, stays
    under the ceiling and gains at most [step]. *)
Lemma simulate_next (step ceiling : Q) (rs : list Q) (r p : Q) :
  0 <= step -> Forall random_value rs -> random_value r -> p <= ceiling ->
  simulate step ceiling rs p <= simulate step ceiling (rs ++ [r]) p
  /\ simulate step ceiling (rs ++ [r]) p <= ceiling
  /\ simulate step ceiling (rs ++ [r]) p <= simulate step ceiling rs p + step.
Proof.
  intros Hstep Hrs Hr Hp. rewrite simulate_app. cbn.
  apply advance_bounds; [exact Hstep|exact Hr|].
  apply simulate_bounds; assumption.
Qed.

End ProgressSimulation.

Section UploadProgress.
Import Upload.

Lemma uploadFiles_timers (st : Upload.state) :
  selectedFiles st <> [] ->
  Upload.timers (uploadFiles st)
  = Upload.timers st ++ [{| progress := 0%Q; running := true |}].
Proof.
  intros H. unfold uploadFiles.
  destruct (selectedFiles st); [congruence|reflexivity].
Qed.

Lemma upload_tick_running (i : nat) (r : Q) (st : Upload.state) (t : timer) :
  Upload.timers st !! i = Some t -> running t = true ->
  Upload.timers (Upload.tick i r st) !! i
  = Some {| progress := advance 15 90 r (progress t); running := true |}
  /\ progressBar (Upload.tick i r st) = advance 15 90 r (progress t).
Proof.
  intros Ht Hrun. unfold Upload.tick. rewrite Ht, Hrun. cbn.
  split; [|reflexivity].
  apply list_lookup_insert_eq. eapply lookup_lt_Some, Ht.
Qed.

Lemma upload_tick_stopped (i : nat) (r : Q) (st : Upload.state) (t : timer) :
  Upload.timers st !! i = Some t -> running t = false ->
  Upload.tick i r st = st.
Proof. intros Ht Hrun. unfold Upload.tick. now rewrite Ht, Hrun. Qed.

Lemma upload_ticks_timer (i : nat) (rs : list Q) (st : Upload.state) (p : Q) :
  Upload.timers st !! i = Some {| progress := p; running := true |} ->
  Upload.timers (upload_ticks i rs st) !! i
  = Some {| progress := simulate 15 90 rs p; running := true |}.
Proof.
  revert st p. induction rs as [|r rs IH]; intros st p Ht; cbn; [exact Ht|].
  apply IH. now destruct (upload_tick_running i r st _ Ht eq_refl) as [-> _].
Qed.

Lemma upload_clearInterval_timer (i : nat) (st : Upload.state) (t : timer) :
  Upload.timers st !! i = Some t ->
  Upload.timers (Upload.clearInterval i st) !! i
  = Some {| progress := progress t; running := false |}.
Proof.
  intros Ht. unfold Upload.clearInterval. rewrite Ht. cbn.
  apply list_lookup_insert_eq. eapply lookup_lt_Some, Ht.
Qed.

Lemma upload_on_error_timer (i : nat) (why : string) (st : Upload.state) (t : timer) :
  Upload.timers st !! i = Some t ->
  Upload.timers (Upload.on_error i why st) !! i
  = Some {| progress := progress t; running := false |}.
Proof. intros Ht. unfold Upload.on_error. cbn. now apply upload_clearInterval_timer. Qed.

Lemma upload_settle_timer (i : nat) (o : outcome) (st : Upload.state) (t : timer) :
  Upload.timers st !! i = Some t ->
  Upload.timers (Upload.settle i o st) !! i
  = Some {| progress := progress t; running := false |}.
Proof.
  intros Ht. destruct o as [why|s txt [data|why|why]]; cbn [Upload.settle].
  - now apply upload_on_error_timer.
  - unfold Upload.on_data. destruct (decide _).
    + cbn. now apply upload_clearInterval_timer.
    + apply (upload_on_error_timer i _ _ {| progress := progress t; running := false |}).
      cbn. now apply upload_clearInterval_timer.
  - now apply upload_on_error_timer.
  - unfold Upload.on_null.
    apply (upload_on_error_timer i _ _ {| progress := progress t; running := false |}).
    cbn. now apply upload_clearInterval_timer.
Qed.

(** The bar is set to 100 by the handler that receives the parsed
    body, and by nothing else in the chain. *)
Lemma upload_settle_bar (i : nat) (o : outcome) (st : Upload.state) :
  progressBar (Upload.settle i o st)
  = match o with
    | Response _ _ (Parsed _) | Response _ _ (Null _) => 100%Q
    | _ => progressBar st
    end.
Proof.
  assert (Herr : forall why s, progressBar (Upload.on_error i why s) = progressBar s).
  { intros why s. unfold Upload.on_error, Upload.clearInterval. cbn.
    now destruct (_ !! _). }
  destruct o as [why|s txt [data|why|why]]; cbn [Upload.settle].
  - apply Herr.
  - unfold Upload.on_data. destruct (decide _); [reflexivity|].
    rewrite Herr. reflexivity.
  - apply Herr.
  - unfold Upload.on_null. rewrite Herr. reflexivity.
Qed.

End UploadProgress.

Section GenerationProgress.

Lemma handleSubmit_timers (st : Configure.state) :
  requests (handleSubmit st) <> requests st ->
  Configure.timers (handleSubmit st)
  = Configure.timers st ++ [{| progress := 0%Q; running := true |}].
Proof.
  unfold handleSubmit. intros Hsent.
  destruct (session_id st) as [[|c sid]|]; try (now contradiction Hsent).
  destruct (length (questionSets st) =? 0)%nat; [now contradiction Hsent|].
  destruct (exceeds_tolerance _ _); [now contradiction Hsent|].
  destruct (loading st); reflexivity.
Qed.

Lemma generation_tick_running (i : nat) (r : Q) (st : Configure.state) (t : timer) :
  Configure.timers st !! i = Some t -> running t = true ->
  Configure.timers (Configure.tick i r st) !! i
  = Some {| progress := advance 10 80 r (progress t); running := true |}
  /\ generateProgress (Configure.tick i r st)
     = bar_set (advance 10 80 r (progress t)) (generateProgress st).
Proof.
  intros Ht Hrun. unfold Configure.tick. rewrite Ht, Hrun.
  cbn [generateProgress set_timers].
  destruct (generateProgress st) eqn:E; cbn; rewrite ?E;
    (split; [|reflexivity]);
    apply list_lookup_insert_eq; eapply lookup_lt_Some, Ht.
Qed.

Lemma generation_tick_stopped (i : nat) (r : Q) (st : Configure.state) (t : timer) :
  Configure.timers st !! i = Some t -> running t = false ->
  Configure.tick i r st = st.
Proof. intros Ht Hrun. unfold Configure.tick. now rewrite Ht, Hrun. Qed.

Lemma generation_ticks_timer (i : nat) (rs : list Q) (st : Configure.state) (p : Q) :
  Configure.timers st !! i = Some {| progress := p; running := true |} ->
  Configure.timers (generation_ticks i rs st) !! i
  = Some {| progress := simulate 10 80 rs p; running := true |}.
Proof.
  revert st p. induction rs as [|r rs IH]; intros st p Ht; cbn; [exact Ht|].
  apply IH. now destruct (generation_tick_running i r st _ Ht eq_refl) as [-> _].
Qed.

Lemma generation_clearInterval_timer (i : nat) (st : Configure.state) (t : timer) :
  Configure.timers st !! i = Some t ->
  Configure.timers (Configure.clearInterval i st) !! i
  = Some {| progress := progress t; running := false |}.
Proof.
  intros Ht. unfold Configure.clearInterval. rewrite Ht. cbn.
  apply list_lookup_insert_eq. eapply lookup_lt_Some, Ht.
Qed.

Lemma generation_on_error_timer (i : nat) (why : string) (st : Configure.state) (t : timer) :
  Configure.timers st !! i = Some t ->
  Configure.timers (Configure.on_error i why st) !! i
  = Some {| progress := progress t; running := false |}.
Proof.
  intros Ht. unfold Configure.on_error. cbn.
  destruct (loading _); cbn; now apply generation_clearInterval_timer.
Qed.

Lemma generation_settle_timer (i : nat) (o : outcome) (st : Configure.state) (t : timer) :
  Configure.timers st !! i = Some t ->
  Configure.timers (Configure.settle i o st) !! i
  = Some {| progress := progress t; running := false |}.
Proof.
  intros Ht. destruct o as [why|s txt b]; cbn [Configure.settle].
  - now apply generation_on_error_timer.
  - destruct (negb (ok s)); [now apply generation_on_error_timer|].
    assert (Hc : Configure.timers
                   (match generateProgress (Configure.clearInterval i st) with
                    | Some _ => set_generateProgress (Some 100%Q) (Configure.clearInterval i st)
                    | None => Configure.clearInterval i st
                    end) !! i
                 = Some {| progress := progress t; running := false |}).
    { destruct (generateProgress _); cbn; now apply generation_clearInterval_timer. }
    destruct b as [data|why|why]; [|now apply generation_on_error_timer|].
    + unfold Configure.on_data. destruct (decide _).
      * cbn. exact Hc.
      * now apply (generation_on_error_timer i _ _
                     {| progress := progress t; running := false |}).
    + unfold Configure.on_null.
      now apply (generation_on_error_timer i _ _
                   {| progress := progress t; running := false |}).
Qed.

Lemma generation_on_error_bar (i : nat) (why : string) (st : Configure.state) :
  generateProgress (Configure.on_error i why st) = generateProgress st.
Proof.
  unfold Configure.on_error, Configure.clearInterval. cbn.
  destruct (Configure.timers st !! i); cbn; destruct (loading st); reflexivity.
Qed.

(** The bar is set to 100 by the handler that receives the parsed
    body of an OK response, and by nothing else in the chain. *)
Lemma generation_settle_bar (i : nat) (o : outcome) (st : Configure.state) :
  generateProgress (Configure.settle i o st)
  = match o with
    | Response s _ (Parsed _) | Response s _ (Null _) =>
        if ok s then bar_set 100%Q (generateProgress st) else generateProgress st
    | _ => generateProgress st
    end.
Proof.
  assert (Hc : generateProgress (Configure.clearInterval i st) = generateProgress st).
  { unfold Configure.clearInterval. now destruct (_ !! _). }
  destruct o as [why|s txt b]; cbn [Configure.settle].
  - apply generation_on_error_bar.
  - destruct (ok s); cbn [negb].
    + destruct b as [data|why|why]; [|apply generation_on_error_bar|].
      * unfold Configure.on_data. rewrite Hc.
        destruct (generateProgress st) eqn:E; destruct (decide _);
          rewrite ?generation_on_error_bar; cbn; rewrite ?Hc, ?E; reflexivity.
      * unfold Configure.on_null. rewrite generation_on_error_bar, Hc.
        destruct (generateProgress st) eqn:E; cbn; rewrite ?Hc, ?E; reflexivity.
    + destruct b; apply generation_on_error_bar.
Qed.

End GenerationProgress.

Section ProgressClaims.
Local Open Scope Q_scope.

(** C10, as stated, fails: a response to the generation request has
    arrived (HTTP 500), the interval is cleared, and the bar stays at
    the simulated 5 per cent; a response to the upload has arrived
    with a body that does not parse, and the bar stays at the
    simulated 7.5 per cent. *)
Lemma bar_not_forced_on_every_response :
  let generating := Configure.tick 0 (1 # 2) (handleSubmit short_5_4) in
  let sending := Upload.tick 0 (1 # 2) uploading in
  generateProgress
    (Configure.settle 0 (Response 500 "Internal Server Error" (Parsed declared_success))
       generating)
  = Some (0 + (1 # 2) * 10)
  /\ ~ (0 + (1 # 2) * 10 == 100)
  /\ Upload.progressBar
       (Upload.settle 0 (Response 200 "OK" (Unparseable "Unexpected end of JSON input"))
          sending)
     = 0 + (1 # 2) * 15
  /\ ~ (0 + (1 # 2) * 15 == 100).
Proof.
  cbn zeta. split; [vm_compute; reflexivity|]. split; [intros H; vm_compute in H; lia|].
  split; [vm_compute; reflexivity|]. intros H; vm_compute in H; lia.
Qed.

(** C10, amended.  From the moment a request is sent, however often
    its interval fires, the [progress] of its closure starts at 0,
    never goes down, never passes the ceiling (90 for the upload, 80
    for the generation) and gains at most the step (15, 10) per
    firing.  However the request settles, the interval is cleared and
    a later firing changes nothing.  The bar is set to 100 when the
    parsed body reaches its handler - for the upload any response
    whose body parses, for the generation a 2xx response whose body
    parses, to [null] included - and otherwise keeps the width it
    had. *)
Theorem progress_simulations :
  (forall (st : Upload.state) (rs : list Q) (r : Q) (o : outcome),
      Upload.selectedFiles st <> [] -> Forall random_value rs -> random_value r ->
      let i := length (Upload.timers st) in
      let sending := upload_ticks i rs (Upload.uploadFiles st) in
      Upload.timers sending !! i
      = Some {| progress := simulate 15 90 rs 0; running := true |}
      /\ 0 <= simulate 15 90 rs 0
      /\ simulate 15 90 rs 0 <= simulate 15 90 (rs ++ [r]) 0
      /\ simulate 15 90 (rs ++ [r]) 0 <= 90
      /\ simulate 15 90 (rs ++ [r]) 0 <= simulate 15 90 rs 0 + 15
      /\ Upload.timers (Upload.settle i o sending) !! i
         = Some {| progress := simulate 15 90 rs 0; running := false |}
      /\ Upload.tick i r (Upload.settle i o sending) = Upload.settle i o sending
      /\ Upload.progressBar (Upload.settle i o sending)
         = match o with
           | Response _ _ (Parsed _) | Response _ _ (Null _) => 100
           | _ => Upload.progressBar sending
           end)
  /\ (forall (st : Configure.state) (rs : list Q) (r : Q) (o : outcome),
        requests (handleSubmit st) <> requests st ->
        Forall random_value rs -> random_value r ->
        let i := length (Configure.timers st) in
        let generating := generation_ticks i rs (handleSubmit st) in
        Configure.timers generating !! i
        = Some {| progress := simulate 10 80 rs 0; running := true |}
        /\ 0 <= simulate 10 80 rs 0
        /\ simulate 10 80 rs 0 <= simulate 10 80 (rs ++ [r]) 0
        /\ simulate 10 80 (rs ++ [r]) 0 <= 80
        /\ simulate 10 80 (rs ++ [r]) 0 <= simulate 10 80 rs 0 + 10
        /\ Configure.timers (Configure.settle i o generating) !! i
           = Some {| progress := simulate 10 80 rs 0; running := false |}
        /\ Configure.tick i r (Configure.settle i o generating)
           = Configure.settle i o generating
        /\ generateProgress (Configure.settle i o generating)
           = match o with
             | Response s _ (Parsed _) | Response s _ (Null _) =>
                 if ok s then bar_set 100 (generateProgress generating)
                 else generateProgress generating
             | _ => generateProgress generating
             end).
Proof.
  split.
  - intros st rs r o Hsel Hrs Hr. cbn zeta.
    assert (Hstart : Upload.timers (Upload.uploadFiles st) !! length (Upload.timers st)
                     = Some {| progress := 0; running := true |}).
    { rewrite uploadFiles_timers by exact Hsel. apply list_lookup_middle. reflexivity. }
    pose proof (upload_ticks_timer _ rs _ _ Hstart) as Hrun.
    pose proof (upload_settle_timer _ o _ _ Hrun) as Hstop. cbn [progress] in Hstop.
    assert (H15 : 0 <= 15) by (unfold Qle; simpl; lia).
    assert (H90 : 0 <= 90) by (unfold Qle; simpl; lia).
    destruct (simulate_bounds 15 90 rs 0 H15 Hrs H90) as [Hlow _].
    destruct (simulate_next 15 90 rs r 0 H15 Hrs Hr H90) as (Hup & Hceil & Hgain).
    repeat split; try assumption.
    + eapply upload_tick_stopped; [exact Hstop|reflexivity].
    + apply upload_settle_bar.
  - intros st rs r o Hsent Hrs Hr. cbn zeta.
    assert (Hstart : Configure.timers (handleSubmit st) !! length (Configure.timers st)
                     = Some {| progress := 0; running := true |}).
    { rewrite handleSubmit_timers by exact Hsent. apply list_lookup_middle. reflexivity. }
    pose proof (generation_ticks_timer _ rs _ _ Hstart) as Hrun.
    pose proof (generation_settle_timer _ o _ _ Hrun) as Hstop. cbn [progress] in Hstop.
    assert (H10 : 0 <= 10) by (unfold Qle; simpl; lia).
    assert (H80 : 0 <= 80) by (unfold Qle; simpl; lia).
    destruct (simulate_bounds 10 80 rs 0 H10 Hrs H80) as [Hlow _].
    destruct (simulate_next 10 80 rs r 0 H10 Hrs Hr H80) as (Hup & Hceil & Hgain).
    repeat split; try assumption.
    + eapply generation_tick_stopped; [exact Hstop|reflexivity].
    + apply generation_settle_bar.
Qed.

Lemma progress_simulations_witness :
  Upload.timers
    (Upload.settle 0 (Rejected "Failed to fetch")
       (upload_ticks 0 [1 # 2; 9 # 10]
          (Upload.uploadFiles (Upload.handleFiles [notes_pdf; scan_png] upload_page))))
    !! 0%nat
  = Some {| progress := simulate 15 90 [1 # 2; 9 # 10] 0; running := false |}
  /\ simulate 10 80 ([1 # 2; 9 # 10] ++ [1 # 3]) 0 <= 80.
Proof.
  assert (Hrs : Forall random_value [1 # 2; 9 # 10]).
  { repeat constructor; unfold Qle, Qlt; simpl; lia. }
  assert (Hr : random_value (1 # 3)).
  { split; unfold Qle, Qlt; simpl; lia. }
  destruct progress_simulations as [Hupload Hgeneration].
  split.
  - refine (proj1 (proj2 (proj2 (proj2 (proj2 (proj2
      (Hupload (Upload.handleFiles [notes_pdf; scan_png] upload_page)
         [1 # 2; 9 # 10] (1 # 3) (Rejected "Failed to fetch") _ Hrs Hr))))))).
    vm_compute. discriminate.
  - refine (proj1 (proj2 (proj2 (proj2
      (Hgeneration short_5_4 [1 # 2; 9 # 10] (1 # 3) (Rejected "Failed to fetch")
         _ Hrs Hr))))).
    vm_compute. discriminate.
Defined.

End ProgressClaims.

(** * Properties of the topic tags *)

Section TopicTags.
Import Topics.

Lemma filter_absent {A : Type} `{EqDecision A} (x : A) (l : list A) :
  x ∉ l -> filter (fun t => t ≠ x) l = l.
Proof.
  induction l as [|y l IH]; intros Hx; [reflexivity|].
  rewrite filter_cons_True by (intros ->; apply Hx; left).
  rewrite IH; [reflexivity|]. intros H. apply Hx. now right.
Qed.

Lemma click_selected (j : nat) (st : Topics.state) (this : tag) :
  topicTags st !! j = Some this ->
  selectedTopics (click j st)
  = if decide (topic this ∈ selectedTopics st)
    then filter (fun t => t ≠ topic this) (selectedTopics st)
    else selectedTopics st ++ [topic this].
Proof.
  intros Hj. unfold click. rewrite Hj. now destruct (decide _).
Qed.

Lemma click_tag (j : nat) (st : Topics.state) (this : tag) :
  topicTags st !! j = Some this ->
  exists classes,
    topicTags (click j st) = <[j := {| topic := topic this; classList := classes |}]> (topicTags st)
    /\ ("bg-blue-200" ∈ classes <-> topic this ∉ selectedTopics st).
Proof.
  intros Hj. unfold click. rewrite Hj.
  destruct (decide (topic this ∈ selectedTopics st)) as [Hin|Hout]; cbn.
  - eexists. split; [reflexivity|]. split; [|tauto].
    unfold classList_add, classList_remove. intros Hblue.
    destruct (decide _); [|apply elem_of_app in Hblue as [Hblue|Hblue]].
    + apply list_elem_of_filter in Hblue. now destruct Hblue.
    + apply list_elem_of_filter in Hblue. now destruct Hblue.
    + apply list_elem_of_singleton in Hblue. discriminate.
  - eexists. split; [reflexivity|]. split; [tauto|]. intros _.
    unfold classList_add. destruct (decide _); [assumption|].
    apply elem_of_app. right. now apply list_elem_of_singleton.
Qed.

Lemma click_input (j : nat) (st : Topics.state) (this : tag) :
  topicTags st !! j = Some this ->
  priorityInput (click j st)
  = match priorityInput st with
    | Some _ => Some (join (selectedTopics (click j st)))
    | None => None
    end.
Proof. intros Hj. unfold click. rewrite Hj. now destruct (decide _). Qed.

Lemma click_missing_tag (j : nat) (st : Topics.state) :
  topicTags st !! j = None -> click j st = st.
Proof. intros Hj. unfold click. now rewrite Hj. Qed.

Lemma click_topics (j : nat) (st : Topics.state) :
  map topic (topicTags (click j st)) = map topic (topicTags st).
Proof.
  destruct (topicTags st !! j) as [this|] eqn:Hj.
  - destruct (click_tag j st this Hj) as (classes & -> & _).
    apply list_eq. intros k.
    change (map topic ?l) with (topic <$> l). rewrite !list_lookup_fmap.
    destruct (decide (k = j)) as [->|Hne].
    + rewrite list_lookup_insert_eq by (eapply lookup_lt_Some, Hj). now rewrite Hj.
    + now rewrite list_lookup_insert_ne by congruence.
  - now rewrite click_missing_tag.
Qed.

Lemma click_NoDup (j : nat) (st : Topics.state) :
  NoDup (selectedTopics st) -> NoDup (selectedTopics (click j st)).
Proof.
  intros Hnd. destruct (topicTags st !! j) as [this|] eqn:Hj.
  - rewrite (click_selected j st this Hj). destruct (decide _) as [Hin|Hout].
    + now apply NoDup_filter.
    + apply NoDup_app. split; [exact Hnd|]. split; [|apply NoDup_singleton].
      intros x Hx Hx'. apply list_elem_of_singleton in Hx'. now subst.
  - now rewrite click_missing_tag.
Qed.

(** However the tags are clicked, no topic is listed twice in
    [selectedTopics]. *)
Theorem selected_topics_never_repeat (tags : list tag) (input : option string)
    (js : list nat) :
  NoDup (selectedTopics (clicks js (setupTopicTags tags input))).
Proof.
  unfold clicks.
  assert (H : NoDup (selectedTopics (setupTopicTags tags input))) by apply NoDup_nil_2.
  revert H. generalize (setupTopicTags tags input).
  induction js as [|j js IH]; intros st H; cbn; [exact H|].
  apply IH, click_NoDup, H.
Qed.

Lemma click_membership (j : nat) (st : Topics.state) (this : tag) (t : option string) :
  topicTags st !! j = Some this ->
  (t ∈ selectedTopics (click j st)
   <-> if decide (t = topic this) then t ∉ selectedTopics st else t ∈ selectedTopics st).
Proof.
  intros Hj. rewrite (click_selected j st this Hj).
  destruct (decide (t = topic this)) as [->|Hne];
    destruct (decide (topic this ∈ selectedTopics st)) as [Hin|Hout].
  - rewrite list_elem_of_filter. tauto.
  - rewrite elem_of_app, list_elem_of_singleton. tauto.
  - rewrite list_elem_of_filter. tauto.
  - rewrite elem_of_app, list_elem_of_singleton. tauto.
Qed.

(** A click on a tag flips whether its topic is selected and leaves
    every other topic as it was. *)
Theorem click_toggles_topic (j : nat) (st : Topics.state) (this : tag)
    (t : option string) :
  topicTags st !! j = Some this ->
  (t ∈ selectedTopics (click j st)
   <-> if decide (t = topic this) then t ∉ selectedTopics st else t ∈ selectedTopics st).
Proof.
  intros Hj. rewrite (click_selected j st this Hj).
  destruct (decide (topic this ∈ selectedTopics st)) as [Hin|Hout];
    destruct (decide (t = topic this)) as [->|Hne];
    rewrite ?list_elem_of_filter, ?elem_of_app, ?list_elem_of_singleton; tauto.
Qed.

Lemma click_toggles_topic_witness :
  Some "Optics" ∈ selectedTopics (click 0 sample_topics)
  <-> Some "Optics" ∉ selectedTopics sample_topics.
Proof. exact (click_toggles_topic 0 sample_topics _ (Some "Optics") eq_refl). Defined.

Lemma filter_moves_to_end {A : Type} `{EqDecision A} (x : A) (l : list A) :
  NoDup l ->
  (filter (fun t => t ≠ x) l ++ [x] = l <-> last l = Some x).
Proof.
  intros Hnd. split.
  - intros <-. apply last_snoc.
  - intros Hlast. apply last_Some in Hlast as [l' ->].
    apply NoDup_app in Hnd as (_ & Hx & _).
    rewrite filter_app, filter_absent.
    + rewrite filter_cons_False by tauto. now rewrite app_nil_r.
    + intros Hin. apply (Hx x Hin). now left.
Qed.

(** Two clicks on tag [j] leave in [selectedTopics] the list as it was
    when the tag's topic was not selected, and the other topics in
    their order followed by the tag's topic when it was.  On a list
    without repeats (every list the handlers build is one) the two
    clicks therefore restore [selectedTopics] exactly when the topic
    was not selected or was the last one selected; a topic selected
    earlier has moved to the end.  Either way the input, when the page
    has one, ends up holding the joined list. *)
Theorem two_clicks_on_a_tag (j : nat) (st : Topics.state) (this : tag) :
  topicTags st !! j = Some this ->
  selectedTopics (click j (click j st))
  = (if decide (topic this ∈ selectedTopics st)
     then filter (fun t => t ≠ topic this) (selectedTopics st) ++ [topic this]
     else selectedTopics st)
  /\ (NoDup (selectedTopics st) ->
      (selectedTopics (click j (click j st)) = selectedTopics st
       <-> topic this ∉ selectedTopics st \/ last (selectedTopics st) = Some (topic this)))
  /\ priorityInput (click j (click j st))
     = match priorityInput st with
       | Some _ => Some (join (selectedTopics (click j (click j st))))
       | None => None
       end.
Proof.
  intros Hj.
  destruct (click_tag j st this Hj) as (classes & Htags & _).
  assert (Hj' : topicTags (click j st) !! j
                = Some {| topic := topic this; classList := classes |}).
  { rewrite Htags. apply list_lookup_insert_eq. eapply lookup_lt_Some, Hj. }
  assert (Hlist : selectedTopics (click j (click j st))
                  = (if decide (topic this ∈ selectedTopics st)
                     then filter (fun t => t ≠ topic this) (selectedTopics st) ++ [topic this]
                     else selectedTopics st)).
  { rewrite (click_selected j _ _ Hj'), (click_selected j st this Hj). cbn [topic].
    destruct (decide (topic this ∈ selectedTopics st)) as [Hin|Hout].
    + destruct (decide _) as [Hin'|_]; [|reflexivity].
      apply list_elem_of_filter in Hin'. now destruct Hin'.
    + destruct (decide _) as [_|Hout'].
      * rewrite filter_app, filter_absent by exact Hout.
        rewrite filter_cons_False by tauto. apply app_nil_r.
      * exfalso. apply Hout'. apply elem_of_app. right. now left. }
  split; [exact Hlist|]. split.
  - intros Hnd. rewrite Hlist.
    destruct (decide (topic this ∈ selectedTopics st)) as [Hin|Hout].
    + rewrite (filter_moves_to_end (topic this) _ Hnd). tauto.
    + tauto.
  - rewrite (click_input j _ _ Hj'), (click_input j st this Hj).
    now destruct (priorityInput st).
Qed.

Lemma two_clicks_on_a_tag_witness :
  selectedTopics (click 0 (click 0 sample_topics)) = selectedTopics sample_topics
  /\ selectedTopics (click 0 (click 0 (click 0 sample_topics)))
     = selectedTopics (click 0 sample_topics)
  /\ selectedTopics (click 0 (click 0 (clicks [0; 1]%nat sample_topics)))
     = [Some "Waves"; Some "Optics"]
  /\ selectedTopics (click 0 (click 0 (clicks [0; 1]%nat sample_topics)))
     <> selectedTopics (clicks [0; 1]%nat sample_topics).
Proof.
  split; [exact (proj1 (two_clicks_on_a_tag 0 sample_topics _ eq_refl))|].
  split.
  { apply (proj1 (proj2 (two_clicks_on_a_tag 0 (click 0 sample_topics) _ eq_refl))).
    - refine (bool_decide_unpack _ _). vm_compute. exact I.
    - right. reflexivity. }
  split; [exact (proj1 (two_clicks_on_a_tag 0 (clicks [0; 1]%nat sample_topics) _ eq_refl))|].
  intros Heq.
  apply (proj1 (proj2 (two_clicks_on_a_tag 0 (clicks [0; 1]%nat sample_topics) _ eq_refl)))
    in Heq.
  - destruct Heq as [Hout|Hlast]; [|discriminate Hlast].
    apply Hout. vm_compute. left.
  - refine (bool_decide_unpack _ _). vm_compute. exact I.
Defined.

Lemma click_highlight_in_step (j : nat) (st : Topics.state) :
  NoDup (map topic (topicTags st)) ->
  highlight_in_step st -> highlight_in_step (click j st).
Proof.
  intros Hnd Hinv. destruct (topicTags st !! j) as [this|] eqn:Hj;
    [|now rewrite click_missing_tag].
  destruct (click_tag j st this Hj) as (classes & Htags & Hblue).
  intros k tag Hk. rewrite Htags in Hk.
  rewrite (click_membership j st this _ Hj).
  destruct (decide (k = j)) as [->|Hne].
  - rewrite list_lookup_insert_eq in Hk by (eapply lookup_lt_Some, Hj).
    injection Hk as <-. cbn. now destruct (decide _).
  - rewrite list_lookup_insert_ne in Hk by congruence.
    destruct (decide (topic tag = topic this)) as [Heq|_]; [|exact (Hinv k tag Hk)].
    exfalso. apply Hne. eapply (NoDup_lookup _ k j (topic tag) Hnd).
    + change (map topic ?l) with (topic <$> l). now rewrite list_lookup_fmap, Hk.
    + change (map topic ?l) with (topic <$> l). now rewrite list_lookup_fmap, Hj, Heq.
Qed.

(** On a page whose tags carry pairwise different topics and of which
    none is rendered highlighted, every tag carries the highlight class
    [bg-blue-200] exactly when its topic is selected, however the tags
    are clicked. *)
Theorem highlight_follows_selection (tags : list tag) (input : option string)
    (js : list nat) :
  NoDup (map topic tags) ->
  (forall tag, tag ∈ tags -> "bg-blue-200" ∉ classList tag) ->
  highlight_in_step (clicks js (setupTopicTags tags input)).
Proof.
  intros Hnd Hplain. unfold clicks.
  assert (Hinv : highlight_in_step (setupTopicTags tags input)).
  { intros k tag Hk. cbn in *. split.
    - intros Hblue. exfalso. eapply Hplain; [|exact Hblue].
      eapply list_elem_of_lookup_2, Hk.
    - intros H. now apply not_elem_of_nil in H. }
  assert (Hnd' : NoDup (map topic (topicTags (setupTopicTags tags input)))) by exact Hnd.
  revert Hinv Hnd'. generalize (setupTopicTags tags input).
  induction js as [|j js IH]; intros st Hinv Hnd'; cbn; [exact Hinv|].
  apply IH; [now apply click_highlight_in_step|now rewrite click_topics].
Qed.

Lemma highlight_follows_selection_witness :
  highlight_in_step (clicks [0; 1; 0]%nat sample_topics).
Proof.
  apply (highlight_follows_selection sample_tags (Some EmptyString) [0; 1; 0]%nat).
  - refine (bool_decide_unpack _ _). vm_compute. exact I.
  - intros tag Htag. unfold sample_tags in Htag.
    apply elem_of_cons in Htag as [->|Htag];
      [refine (bool_decide_unpack _ _); vm_compute; exact I|].
    apply elem_of_cons in Htag as [->|Htag];
      [refine (bool_decide_unpack _ _); vm_compute; exact I|].
    now apply not_elem_of_nil in Htag.
Defined.

End TopicTags.

(** * Further properties of configure.js *)

Section Indicator.

Lemma updateMarksValidation_indicator (st : state) (d : display) :
  totalMarksDisplay st = Some d ->
  textContent d = toString (totalMarks st) ->
  indicator_in_step (updateMarksValidation st).
Proof.
  intros Hd Htext. unfold indicator_in_step, updateMarksValidation. rewrite Hd.
  destruct (within_tolerance _ _) eqn:E; cbn; rewrite E, Htext; reflexivity.
Qed.

Lemma updateTotalMarks_indicator (st : state) (d : display) :
  totalMarksDisplay st = Some d -> indicator_in_step (updateTotalMarks st).
Proof.
  intros Hd. unfold updateTotalMarks.
  cbn [totalMarksDisplay set_totalMarks]. rewrite Hd.
  eapply updateMarksValidation_indicator; reflexivity.
Qed.

Lemma step_indicator (a : action) (st : state) :
  indicator_in_step st -> indicator_in_step (step a st).
Proof.
  intros H. pose proof H as Hd. unfold indicator_in_step in Hd.
  destruct a as [|i p|i|v|]; cbn [step].
  - unfold addQuestionSet. destruct (negb _); [exact H|].
    eapply updateTotalMarks_indicator. exact Hd.
  - unfold updateQuestionSet. destruct (at_index _ _); [|exact H].
    eapply updateTotalMarks_indicator. exact Hd.
  - unfold removeQuestionSet. destruct (_ <=? _)%nat.
    + exact H.
    + eapply updateTotalMarks_indicator. exact Hd.
  - eapply updateMarksValidation_indicator; [exact Hd|reflexivity].
  - unfold indicator_in_step.
    destruct (handleSubmit_model st) as [_ ->].
    unfold handleSubmit.
    destruct (session_id st) as [[|c sid]|]; try exact H.
    destruct (_ =? _)%nat; [exact H|].
    destruct (exceeds_tolerance _ _); [exact H|].
    destruct (loading st); exact H.
Qed.

(** On a page that has the container and the total display, the
    display shows the running total, in green when the total is within
    5 of the target and in red otherwise, after the page has loaded and
    after every further action. *)
Theorem indicator_always_in_step (p : state) (d : display) (acts : list action) :
  questionSetsContainer p = true ->
  totalMarksDisplay p = Some d ->
  indicator_in_step (run acts (init p)).
Proof.
  intros Hc Hd.
  assert (H : indicator_in_step (init p)).
  { unfold init, addQuestionSet. cbn. rewrite Hc. cbn.
    eapply updateTotalMarks_indicator. exact Hd. }
  revert H. generalize (init p). clear.
  induction acts as [|a acts IH]; intros st H; cbn; [exact H|].
  apply IH, step_indicator, H.
Qed.

Lemma indicator_always_in_step_witness :
  indicator_in_step (run [Add; Update 1 (p_marks (Num 10)); ChangeTarget "20"] (init sample_page)).
Proof.
  apply (indicator_always_in_step sample_page
           {| textContent := "0"; className := EmptyString |}); reflexivity.
Defined.

End Indicator.

Section ListEdits.

(** On a page that has the container, at any point of a session, one
    more [addQuestionSet] makes the list one longer, with the default
    set (short answer, 5 marks, count 1) at its end, and the running
    total becomes the old total plus 5 as doubles add them: exactly 5
    more whenever that is no more than [2^53] in magnitude. *)
Theorem add_appends_default_set (p : state) (acts : list action) :
  questionSetsContainer p = true ->
  let st := run acts (init p) in
  questionSets (addQuestionSet st)
  = questionSets st
    ++ [{| id := Z.of_nat (length (questionSets st)); type := short;
           marks := Num 5; count := Num 1 |}]
  /\ totalMarks (addQuestionSet st) = add (totalMarks st) (Num 5)
  /\ (forall t : Z,
        totalMarks st = Num t -> Z.abs (t + 5) <= 2 ^ 53 ->
        totalMarks (addQuestionSet st) = Num (t + 5)).
Proof.
  intros Hc. cbn zeta.
  assert (Hc' : questionSetsContainer (run acts (init p)) = true).
  { assert (H : questionSetsContainer (init p) = true)
      by (unfold init; now rewrite (container_kept Add)).
    revert H. generalize (init p).
    induction acts as [|a acts IH]; intros st H; cbn; [exact H|].
    apply IH. now rewrite container_kept. }
  assert (Htotal : totalMarks (addQuestionSet (run acts (init p)))
                   = add (totalMarks (run acts (init p))) (Num 5)).
  { rewrite (step_in_step Add _ (run_in_step acts _ (init_in_step p))).
    change (step Add ?s) with (addQuestionSet s).
    rewrite addQuestionSet_sets by exact Hc'.
    rewrite reduce_marks_snoc, <- (run_in_step acts _ (init_in_step p)).
    reflexivity. }
  split; [now apply addQuestionSet_sets|]. split; [exact Htotal|].
  intros t Ht Hfit. rewrite Htotal, Ht. cbn [add]. now apply round_exact.
Qed.

Lemma add_appends_default_set_witness :
  totalMarks (addQuestionSet (run [Add] (init sample_page))) = Num (10 + 5).
Proof.
  refine (proj2 (proj2 (add_appends_default_set sample_page [Add] eq_refl)) 10 _ _).
  - reflexivity.
  - vm_compute. discriminate.
Defined.

Lemma updateQuestionSet_ids (st : state) (setIndex : Z) (p : property) :
  map id (questionSets (updateQuestionSet setIndex p st)) = map id (questionSets st).
Proof.
  rewrite updateQuestionSet_sets. unfold at_index.
  destruct (setIndex <? 0); [reflexivity|].
  destruct (questionSets st !! Z.to_nat setIndex) as [set|] eqn:Hset; [|reflexivity].
  change (map id ?l) with (id <$> l). rewrite list_fmap_insert.
  apply list_insert_id. rewrite list_lookup_fmap, Hset. now destruct p.
Qed.

(** [updateQuestionSet] never changes how many sets there are, which
    ids they carry, or their order. *)
Theorem update_keeps_ids (st : state) (setIndex : Z) (p : property) :
  map id (questionSets (updateQuestionSet setIndex p st)) = map id (questionSets st)
  /\ length (questionSets (updateQuestionSet setIndex p st)) = length (questionSets st).
Proof.
  split; [apply updateQuestionSet_ids|].
  rewrite <- (length_map id), updateQuestionSet_ids. apply length_map.
Qed.

(** [updateQuestionSet] with an index that is negative or not below the
    length of the list changes nothing at all: no field, no total, no
    notification. *)
Theorem update_out_of_range_changes_nothing (st : state) (setIndex : Z) (p : property) :
  setIndex < 0 \/ Z.of_nat (length (questionSets st)) <= setIndex ->
  updateQuestionSet setIndex p st = st.
Proof.
  intros H. unfold updateQuestionSet, at_index.
  destruct (Z.ltb_spec setIndex 0); [reflexivity|].
  rewrite lookup_ge_None_2 by lia. reflexivity.
Qed.

Lemma update_out_of_range_changes_nothing_witness :
  updateQuestionSet 1 (p_count (Num 4)) (init sample_page) = init sample_page
  /\ updateQuestionSet (-1) (p_count (Num 4)) (init sample_page) = init sample_page.
Proof.
  split; apply update_out_of_range_changes_nothing; [right|left]; vm_compute;
    [discriminate|reflexivity].
Defined.

Lemma filter_all {A : Type} (P : A -> Prop) `{forall x, Decision (P x)} (l : list A) :
  (forall x, x ∈ l -> P x) -> filter P l = l.
Proof.
  induction l as [|x l IH]; intros Hall; [reflexivity|].
  rewrite filter_cons_True by (apply Hall; left).
  rewrite IH; [reflexivity|]. intros y Hy. apply Hall. now right.
Qed.

Lemma updateMarksValidation_notifications (st : state) :
  notifications (updateMarksValidation st) = notifications st.
Proof.
  unfold updateMarksValidation.
  destruct (totalMarksDisplay st); [|reflexivity].
  destruct (within_tolerance _ _); reflexivity.
Qed.

Lemma updateTotalMarks_notifications (st : state) :
  notifications (updateTotalMarks st) = notifications st.
Proof.
  unfold updateTotalMarks. rewrite updateMarksValidation_notifications.
  cbn [totalMarksDisplay set_totalMarks]. destruct (totalMarksDisplay st); reflexivity.
Qed.

(** With more than one set in the list, [removeQuestionSet] with an id
    that no set carries removes nothing and shows nothing. *)
Theorem remove_unknown_id_is_silent (st : state) (setIndex : Z) :
  (1 < length (questionSets st))%nat ->
  (forall set, set ∈ questionSets st -> id set ≠ setIndex) ->
  questionSets (removeQuestionSet setIndex st) = questionSets st
  /\ notifications (removeQuestionSet setIndex st) = notifications st.
Proof.
  intros Hlen Hid. split.
  - rewrite removeQuestionSet_sets.
    destruct (Nat.leb_spec (length (questionSets st)) 1); [lia|].
    now apply filter_all.
  - unfold removeQuestionSet.
    destruct (Nat.leb_spec (length (questionSets st)) 1); [lia|].
    now rewrite updateTotalMarks_notifications.
Qed.

Lemma remove_unknown_id_is_silent_witness :
  questionSets (removeQuestionSet 7 (run [Add] (init sample_page)))
  = questionSets (run [Add] (init sample_page)).
Proof.
  refine (proj1 (remove_unknown_id_is_silent (run [Add] (init sample_page)) 7 _ _)).
  - vm_compute. lia.
  - intros set Hset.
    change (questionSets (run [Add] (init sample_page)))
      with [{| id := 0; type := short; marks := Num 5; count := Num 1 |};
            {| id := 1; type := short; marks := Num 5; count := Num 1 |}] in Hset.
    apply elem_of_cons in Hset as [->|Hset]; [discriminate|].
    apply elem_of_cons in Hset as [->|Hset]; [discriminate|].
    now apply not_elem_of_nil in Hset.
Defined.

Lemma filter_distinct_ids (setIndex : Z) (sets : list QuestionSet) :
  NoDup (map id sets) ->
  length (filter (fun set => id set ≠ setIndex) sets)
  = (length sets - (if decide (setIndex ∈ map id sets) then 1 else 0))%nat.
Proof.
  induction sets as [|set sets IH]; intros Hnd; [reflexivity|].
  cbn [map] in Hnd. apply NoDup_cons in Hnd as [Hhead Hnd].
  specialize (IH Hnd). cbn [map].
  destruct (decide (id set = setIndex)) as [<-|Hne].
  - rewrite filter_cons_False by tauto.
    rewrite filter_all.
    + destruct (decide (id set ∈ id set :: map id sets)) as [_|Hout];
        [cbn [length]; lia|]. exfalso. apply Hout. left.
    + intros s Hs Heq. apply Hhead. rewrite <- Heq.
      change (map id sets) with (id <$> sets). now apply list_elem_of_fmap_2.
  - rewrite filter_cons_True by exact Hne. cbn [length]. rewrite IH.
    destruct (decide (setIndex ∈ map id sets)) as [Hin|Hout].
    + destruct (decide (setIndex ∈ id set :: map id sets)) as [_|Hout'];
        [|exfalso; apply Hout'; now right].
      assert (0 < length sets)%nat; [|lia].
      destruct sets; [now apply not_elem_of_nil in Hin|cbn; lia].
    + destruct (decide (setIndex ∈ id set :: map id sets)) as [Hin'|_]; [|lia].
      apply elem_of_cons in Hin' as [Heq|Hin']; [congruence|contradiction].
Qed.

(** While the ids in the list are pairwise different, a removal from a
    list of more than one set takes away exactly the set with that id,
    or none when no set has it, and so leaves at least one set. *)
Theorem remove_with_distinct_ids (st : state) (setIndex : Z) :
  NoDup (map id (questionSets st)) ->
  (1 < length (questionSets st))%nat ->
  length (questionSets (removeQuestionSet setIndex st))
  = (length (questionSets st)
     - (if decide (setIndex ∈ map id (questionSets st)) then 1 else 0))%nat
  /\ (1 <= length (questionSets (removeQuestionSet setIndex st)))%nat.
Proof.
  intros Hnd Hlen. rewrite removeQuestionSet_sets.
  destruct (Nat.leb_spec (length (questionSets st)) 1); [lia|].
  rewrite filter_distinct_ids by exact Hnd.
  destruct (decide _); split; lia.
Qed.

Lemma remove_with_distinct_ids_witness :
  (1 <= length (questionSets (removeQuestionSet 0 (run [Add] (init sample_page)))))%nat.
Proof.
  refine (proj2 (remove_with_distinct_ids (run [Add] (init sample_page)) 0 _ _)).
  - refine (bool_decide_unpack _ _). vm_compute. exact I.
  - vm_compute. lia.
Defined.

Lemma filter_lookup_later {A : Type} (P : A -> Prop) `{forall x, Decision (P x)}
    (l : list A) (k : nat) (x : A) :
  filter P l !! k = Some x -> exists k', (k <= k')%nat /\ l !! k' = Some x.
Proof.
  revert k. induction l as [|y l IH]; intros k Hk; [discriminate|].
  rewrite filter_cons in Hk. destruct (decide (P y)).
  - destruct k as [|k]; [exists 0%nat; split; [lia|exact Hk]|].
    destruct (IH k Hk) as (k' & Hle & Hk'). exists (S k'). split; [lia|exact Hk'].
  - destruct (IH k Hk) as (k' & Hle & Hk'). exists (S k'). split; [lia|exact Hk'].
Qed.

Lemma step_ids_cover_positions (a : action) (st : state) :
  ids_cover_positions (questionSets st) ->
  ids_cover_positions (questionSets (step a st)).
Proof.
  intros Hinv. destruct a as [|i p|i|v|]; cbn [step].
  - unfold addQuestionSet. destruct (negb _); [exact Hinv|].
    match goal with |- context [updateTotalMarks ?s] =>
      destruct (updateTotalMarks_model s) as [-> _] end.
    cbn. intros k set Hk.
    apply lookup_app_Some in Hk. destruct Hk as [Hl|[Hlen Hr]]; [now apply Hinv|].
    destruct (k - length (questionSets st))%nat as [|j] eqn:Hj; [|discriminate].
    cbn in Hr. injection Hr as <-. cbn. lia.
  - intros k set Hk.
    pose proof (updateQuestionSet_ids st i p) as Hids.
    assert (Hid : (map id (questionSets (updateQuestionSet i p st))) !! k = Some (id set)).
    { change (map id ?l) with (id <$> l). now rewrite list_lookup_fmap, Hk. }
    rewrite Hids in Hid. change (map id ?l) with (id <$> l) in Hid.
    rewrite list_lookup_fmap in Hid.
    destruct (questionSets st !! k) as [set'|] eqn:Hk'; [|discriminate].
    injection Hid as <-. exact (Hinv k set' Hk').
  - rewrite removeQuestionSet_sets. destruct (_ <=? _)%nat; [exact Hinv|].
    intros k set Hk. apply filter_lookup_later in Hk as (k' & Hle & Hk').
    specialize (Hinv k' set Hk'). lia.
  - now destruct (updateMarksValidation_model (set_total_marks v st)) as [-> _].
  - now destruct (handleSubmit_model st) as [-> _].
Qed.

(** Throughout a session every set stands at a position that is at
    most its id: removals move sets down and never up, so the set that
    [updateQuestionSet(i, ...)] reaches at position [i] never has an id
    below [i]. *)
Theorem ids_never_below_positions (p : state) (acts : list action) :
  ids_cover_positions (questionSets (run acts (init p))).
Proof.
  assert (H : ids_cover_positions (questionSets (init p))).
  { apply (step_ids_cover_positions Add (loaded p)).
    intros k set Hk. destruct k; discriminate. }
  revert H. generalize (init p).
  induction acts as [|a acts IH]; intros st H; cbn; [exact H|].
  apply IH, step_ids_cover_positions, H.
Qed.

End ListEdits.

Section Resubmission.

Lemma passes_guards_inputs (st st' : state) :
  inputs st' = inputs st -> passes_guards st -> passes_guards st'.
Proof.
  unfold inputs, passes_guards. intros [= Hsid Hsets Htotal Htarget _ _ _ _ _].
  now rewrite Hsid, Hsets, Htotal, Htarget.
Qed.

Lemma generation_request_inputs (st st' : state) :
  inputs st' = inputs st -> generation_request st' = generation_request st.
Proof.
  unfold inputs, generation_request, form_entries.
  intros [= Hsid Hsets Htotal Htarget Htitle Hsubject Hdiff Htopics Hinstr].
  now rewrite Hsid, Hsets, Htarget, Htitle, Hsubject, Hdiff, Htopics, Hinstr.
Qed.

Lemma handleSubmit_inputs (st : state) : inputs (handleSubmit st) = inputs st.
Proof.
  unfold handleSubmit.
  destruct (session_id st) as [[|c sid]|] eqn:Hsid; try reflexivity.
  destruct (length (questionSets st) =? 0)%nat; [reflexivity|].
  destruct (exceeds_tolerance _ _); [reflexivity|].
  destruct (loading st); reflexivity.
Qed.

Lemma clearInterval_inputs (i : nat) (st : state) :
  inputs (Configure.clearInterval i st) = inputs st
  /\ requests (Configure.clearInterval i st) = requests st.
Proof. unfold Configure.clearInterval. now destruct (_ !! _). Qed.

Lemma on_error_inputs (i : nat) (why : string) (st : state) :
  inputs (Configure.on_error i why st) = inputs st
  /\ requests (Configure.on_error i why st) = requests st.
Proof.
  unfold Configure.on_error.
  destruct (clearInterval_inputs i st) as [Hin Hreq].
  destruct (loading _); cbn; split; assumption.
Qed.

Lemma settle_inputs (i : nat) (o : outcome) (st : state) :
  inputs (Configure.settle i o st) = inputs st
  /\ requests (Configure.settle i o st) = requests st.
Proof.
  destruct o as [why|s txt b]; cbn [Configure.settle]; [apply on_error_inputs|].
  destruct (negb (ok s)); [apply on_error_inputs|].
  destruct (clearInterval_inputs i st) as [Hin Hreq].
  assert (H : forall s', inputs s' = inputs st /\ requests s' = requests st ->
                inputs (match generateProgress s' with
                        | Some _ => set_generateProgress (Some 100%Q) s'
                        | None => s'
                        end) = inputs st
                /\ requests (match generateProgress s' with
                             | Some _ => set_generateProgress (Some 100%Q) s'
                             | None => s'
                             end) = requests st).
  { intros s' [H1 H2]. destruct (generateProgress s'); cbn; split; assumption. }
  specialize (H _ (conj Hin Hreq)). destruct H as [Hin' Hreq'].
  destruct b as [data|why|why]; [|apply on_error_inputs|].
  - unfold Configure.on_data. destruct (decide _).
    + cbn. split; assumption.
    + match goal with |- context [Configure.on_error i ?w ?s'] =>
        destruct (on_error_inputs i w s') as [-> ->] end.
      split; assumption.
  - unfold Configure.on_null.
    match goal with |- context [Configure.on_error i ?w ?s'] =>
      destruct (on_error_inputs i w s') as [-> ->] end.
    split; assumption.
Qed.

Lemma tick_inputs (i : nat) (r : Q) (st : state) :
  inputs (Configure.tick i r st) = inputs st
  /\ requests (Configure.tick i r st) = requests st.
Proof.
  unfold Configure.tick. destruct (_ !! _) as [t|]; [|easy].
  destruct (running t); [|easy].
  cbn [generateProgress set_timers]. destruct (generateProgress st); easy.
Qed.

Lemma async_inputs (es : list async) (st : state) :
  inputs (fold_left async_step es st) = inputs st
  /\ requests (fold_left async_step es st) = requests st.
Proof.
  revert st. induction es as [|e es IH]; intros st; cbn; [easy|].
  destruct (IH (async_step st e)) as [-> ->].
  destruct e; [apply tick_inputs|apply settle_inputs].
Qed.

Lemma handleSubmit_passing (st : state) :
  passes_guards st ->
  requests (handleSubmit st) = requests st ++ [generation_request st]
  /\ notifications (handleSubmit st) = notifications st
  /\ Configure.timers (handleSubmit st)
     = Configure.timers st ++ [{| progress := 0%Q; running := true |}].
Proof.
  intros ([sid [Hsid Hne]] & Hsets & Hgate).
  destruct (handleSubmit_cases st)
    as [[[H|H] _]|[[_ [H _]]|[[_ [_ [H _]]]|[[sid' [Hsid' [_ Hreq]]] [_ [_ Hnote]]]]]];
    try congruence.
  assert (Hsent : requests (handleSubmit st) <> requests st).
  { rewrite Hreq. intros Heq. apply (f_equal length) in Heq.
    rewrite length_app in Heq. cbn in Heq. lia. }
  split; [|split; [exact Hnote|now apply handleSubmit_timers]].
  rewrite Hreq. unfold generation_request. now rewrite Hsid'.
Qed.

Lemma handleSubmit_failing (st : state) :
  ~ passes_guards st -> exists m, handleSubmit st = showNotification m Error st.
Proof.
  intros Hno.
  destruct (handleSubmit_cases st)
    as [[_ H]|[[_ [_ H]]|[[_ [_ [_ H]]]|[[sid [Hsid [Hne _]]] [Hsets [Hgate _]]]]]];
    eauto.
  exfalso. apply Hno. repeat split; eauto.
Qed.

(** A submission either shows one error notification and changes
    nothing else, or sends one request to [/generate/<session>],
    starts one timer at 0 and shows no notification: never both, never
    neither.  It sends exactly when the session id is non-empty, the
    list is non-empty and the tolerance test does not fire. *)
Theorem submit_notifies_or_sends (st : state) :
  (~ passes_guards st /\ exists m, handleSubmit st = showNotification m Error st)
  \/ (passes_guards st
      /\ requests (handleSubmit st) = requests st ++ [generation_request st]
      /\ notifications (handleSubmit st) = notifications st
      /\ Configure.timers (handleSubmit st)
         = Configure.timers st ++ [{| progress := 0%Q; running := true |}]).
Proof.
  destruct (handleSubmit_cases st)
    as [[[H|H] Hs]|[[_ [H Hs]]|[[_ [_ [H Hs]]]|[[sid [Hsid [Hne _]]] [Hsets [Hgate _]]]]]].
  - left. split; [|eauto]. intros ([sid [Hsid _]] & _). congruence.
  - left. split; [|eauto]. intros ([sid [Hsid Hne]] & _). congruence.
  - left. split; [|eauto]. intros (_ & Hsets & _). congruence.
  - left. split; [|eauto]. intros (_ & _ & Hgate). congruence.
  - right. assert (Hp : passes_guards st) by (repeat split; eauto).
    split; [exact Hp|]. now apply handleSubmit_passing.
Qed.

(** Nothing guards against a second submission, and nothing that
    happens to the first one changes what the form holds: once a
    submission has been sent, pressing submit again sends the same
    request a second time, whether the first is still outstanding, has
    failed or has succeeded. *)
Theorem resubmission_sends_again (st : state) (es : list async) :
  passes_guards st ->
  requests (handleSubmit (fold_left async_step es (handleSubmit st)))
  = requests st ++ [generation_request st; generation_request st].
Proof.
  intros Hp.
  destruct (async_inputs es (handleSubmit st)) as [Hin Hreq].
  rewrite handleSubmit_inputs in Hin.
  destruct (handleSubmit_passing _ (passes_guards_inputs _ _ Hin Hp)) as [-> _].
  rewrite Hreq, (generation_request_inputs _ _ Hin).
  destruct (handleSubmit_passing st Hp) as [-> _].
  now rewrite <- app_assoc.
Qed.

Lemma short_5_4_passes : passes_guards short_5_4.
Proof.
  split; [exists "abc"; split; [reflexivity|discriminate]|].
  split; [discriminate|reflexivity].
Defined.

Lemma resubmission_sends_again_witness :
  requests (handleSubmit
              (fold_left async_step
                 [Fire 0 (1 # 2); Settled 0 (Rejected "Failed to fetch")]
                 (handleSubmit short_5_4)))
  = requests short_5_4 ++ [generation_request short_5_4; generation_request short_5_4].
Proof. exact (resubmission_sends_again short_5_4 _ short_5_4_passes). Defined.

(** When the target field does not parse to a number (it is empty, for
    one), the tolerance test never fires: with a session id and at
    least one set the request is sent whatever the running total is. *)
Theorem unparseable_target_never_blocks (st : state) (sid : string) :
  parseInt (total_marks st) = NaN ->
  session_id st = Some sid -> sid <> EmptyString -> questionSets st <> [] ->
  requests (handleSubmit st) = requests st ++ [generation_request st]
  /\ notifications (handleSubmit st) = notifications st
  /\ within_tolerance (totalMarks st) (parseInt (total_marks st)) = false.
Proof.
  intros Hnan Hsid Hne Hsets.
  assert (Hp : passes_guards st).
  { split; [eauto|]. split; [exact Hsets|].
    rewrite Hnan. unfold exceeds_tolerance. now destruct (totalMarks st). }
  destruct (handleSubmit_passing st Hp) as (Hreq & Hnote & _).
  split; [exact Hreq|]. split; [exact Hnote|].
  rewrite Hnan. unfold within_tolerance. now destruct (totalMarks st).
Qed.

Lemma unparseable_target_never_blocks_witness :
  requests (handleSubmit (step (ChangeTarget EmptyString) (init sample_page)))
  = requests (step (ChangeTarget EmptyString) (init sample_page))
    ++ [generation_request (step (ChangeTarget EmptyString) (init sample_page))].
Proof.
  refine (proj1 (unparseable_target_never_blocks
                   (step (ChangeTarget EmptyString) (init sample_page)) "abc" _ _ _ _));
    [reflexivity|reflexivity|discriminate|discriminate].
Defined.

End Resubmission.

Section Outcomes.

Lemma generation_on_error_effect (i : nat) (why : string) (st : state) :
  notifications (Configure.on_error i why st)
  = notifications st ++ [("Generation failed: " +:+ why, Error)]
  /\ Configure.scheduled (Configure.on_error i why st) = Configure.scheduled st
  /\ loading (Configure.on_error i why st)
     = match loading st with Some _ => Some "none" | None => None end.
Proof.
  unfold Configure.on_error, Configure.clearInterval.
  destruct (Configure.timers st !! i);
    cbn [loading set_timers showNotification set_notifications];
    destruct (loading st) eqn:E; cbn; rewrite ?E; easy.
Qed.

Lemma generation_on_data_start (i : nat) (st : state) :
  let st' := match generateProgress (Configure.clearInterval i st) with
             | Some _ => set_generateProgress (Some 100%Q) (Configure.clearInterval i st)
             | None => Configure.clearInterval i st
             end in
  notifications st' = notifications st
  /\ Configure.scheduled st' = Configure.scheduled st
  /\ loading st' = loading st.
Proof.
  cbn zeta. unfold Configure.clearInterval.
  destruct (Configure.timers st !! i); cbn [generateProgress set_timers];
    destruct (generateProgress st) eqn:E; cbn; rewrite ?E; easy.
Qed.

(** However the generation request settles - the transport fails, the
    response is not 2xx, the body does not parse, parses to [null] or
    parses to any other value - exactly one notification is shown.  On
    a 2xx response whose body parses and declares [success] it is the
    success notification, the redirect the server named is scheduled
    after 1500 time units and the modal stays up.  On every other
    outcome it is an error notification that carries the most specific
    reason at hand (the transport's message, the HTTP status line, the
    parser's message, the message of the [TypeError] raised on a [null]
    body, the server's message or, failing that, [Generation failed]),
    no redirect is scheduled and the modal is hidden. *)
Theorem generation_outcome (i : nat) (o : outcome) (st : state) :
  match generation_succeeds o with
  | Some data =>
      notifications (Configure.settle i o st)
      = notifications st ++ [("Question paper generated successfully!", Success)]
      /\ Configure.scheduled (Configure.settle i o st)
         = Configure.scheduled st ++ [(1500, redirect data)]
      /\ loading (Configure.settle i o st) = loading st
  | None =>
      notifications (Configure.settle i o st)
      = notifications st ++ [("Generation failed: " +:+ generation_failure o, Error)]
      /\ Configure.scheduled (Configure.settle i o st) = Configure.scheduled st
      /\ loading (Configure.settle i o st)
         = match loading st with Some _ => Some "none" | None => None end
  end.
Proof.
  destruct o as [why|s txt b]; cbn [generation_succeeds generation_failure Configure.settle].
  - apply generation_on_error_effect.
  - destruct (ok s); cbn [negb andb].
    + destruct (generation_on_data_start i st) as (Hn & Hs & Hl).
      destruct b as [data|why|why]; [|apply generation_on_error_effect|].
      * unfold Configure.on_data.
        destruct (decide (status data = Some "success")) as [Hok|Hno].
        -- rewrite (bool_decide_eq_true_2 _ Hok). cbn. rewrite Hn, Hs, Hl. easy.
        -- rewrite (bool_decide_eq_false_2 _ Hno).
           match goal with |- context [Configure.on_error i ?w ?s'] =>
             destruct (generation_on_error_effect i w s') as (-> & -> & ->) end.
           rewrite Hn, Hs, Hl. easy.
      * unfold Configure.on_null.
        match goal with |- context [Configure.on_error i ?w ?s'] =>
          destruct (generation_on_error_effect i w s') as (-> & -> & ->) end.
        rewrite Hn, Hs, Hl. easy.
    + destruct b; apply generation_on_error_effect.
Qed.

End Outcomes.

(** * Further properties of upload.js *)

Section UploadMore.
Import Upload.

Lemma splice_length {A : Type} (start : Z) (l : list A) :
  (length l - 1 <= length (splice start 1 l) <= length l)%nat.
Proof.
  unfold splice. rewrite length_app, length_take, length_drop. lia.
Qed.

Lemma splice_in_range {A : Type} (index : Z) (l : list A) :
  0 <= index < Z.of_nat (length l) ->
  splice index 1 l = delete (Z.to_nat index) l.
Proof.
  intros H. unfold splice. destruct (Z.ltb_spec index 0); [lia|].
  rewrite Z.min_l by lia.
  replace (Z.min (Z.max 1 0) (Z.of_nat (length l) - index)) with 1 by lia.
  replace (Z.to_nat (index + 1)) with (S (Z.to_nat index)) by lia.
  symmetry. apply delete_take_drop.
Qed.

(** [removeFile] with the index of a previewed file removes that file
    and no other, keeps the order of the rest, re-renders the preview
    from what is left and disables the upload button exactly when
    nothing is left. *)
Theorem removeFile_removes_that_file (st : Upload.state) (index : Z) :
  0 <= index < Z.of_nat (length (selectedFiles st)) ->
  selectedFiles (removeFile index st) = delete (Z.to_nat index) (selectedFiles st)
  /\ filePreview (removeFile index st) = delete (Z.to_nat index) (selectedFiles st)
  /\ S (length (selectedFiles (removeFile index st))) = length (selectedFiles st)
  /\ uploadBtn_disabled (removeFile index st)
     = (length (selectedFiles st) =? 1)%nat.
Proof.
  intros H. unfold removeFile, updateUploadButton, updateFilePreview. cbn.
  rewrite splice_in_range by exact H.
  assert (Hlen : S (length (delete (Z.to_nat index) (selectedFiles st)))
                 = length (selectedFiles st)).
  { rewrite length_delete; [lia|]. apply lookup_lt_is_Some. lia. }
  repeat split; [exact Hlen|].
  destruct (length (delete _ _)) as [|n] eqn:E; rewrite <- Hlen; reflexivity.
Qed.

Lemma removeFile_removes_that_file_witness :
  selectedFiles (removeFile 0 uploading) = [scan_png].
Proof.
  refine (proj1 (removeFile_removes_that_file uploading 0 _)). vm_compute.
  split; [discriminate|reflexivity].
Defined.

(** Nothing is uploaded from an empty selection: after [handleFiles]
    with no file, and after [removeFile] has taken the only file,
    [uploadFiles] changes nothing, sends nothing, and the button is
    disabled. *)
Theorem empty_selection_is_not_uploaded (st : Upload.state) (index : Z) :
  (uploadFiles (handleFiles [] st) = handleFiles [] st
   /\ Upload.requests (uploadFiles (handleFiles [] st)) = Upload.requests st
   /\ uploadBtn_disabled (handleFiles [] st) = true)
  /\ (length (selectedFiles st) = 1%nat ->
      index <= 0 ->
      uploadFiles (removeFile index st) = removeFile index st
      /\ Upload.requests (uploadFiles (removeFile index st)) = Upload.requests st
      /\ uploadBtn_disabled (removeFile index st) = true).
Proof.
  split; [repeat split|].
  intros Hlen Hidx.
  assert (Hempty : selectedFiles (removeFile index st) = []).
  { unfold removeFile. cbn.
    destruct (selectedFiles st) as [|f [|g l]]; try discriminate.
    unfold splice. cbn [length]. destruct (Z.ltb_spec index 0).
    - replace (Z.max (Z.of_nat 1 + index) 0) with 0 by lia. reflexivity.
    - replace index with 0 by lia. reflexivity. }
  unfold uploadFiles. rewrite Hempty. cbn [length Nat.eqb].
  split; [reflexivity|]. split; [reflexivity|].
  unfold removeFile, updateUploadButton in *. cbn in *. now rewrite Hempty.
Qed.

Lemma empty_selection_is_not_uploaded_witness :
  uploadFiles (removeFile 0 (handleFiles [notes_pdf] upload_page))
  = removeFile 0 (handleFiles [notes_pdf] upload_page).
Proof.
  refine (proj1 (proj2 (empty_selection_is_not_uploaded
                          (handleFiles [notes_pdf] upload_page) 0) _ _));
    [reflexivity|lia].
Defined.

Lemma upload_tick_frame (i : nat) (r : Q) (st : Upload.state) :
  selectedFiles (Upload.tick i r st) = selectedFiles st
  /\ Upload.requests (Upload.tick i r st) = Upload.requests st.
Proof.
  unfold Upload.tick. destruct (_ !! _) as [t|]; [|easy]. now destruct (running t).
Qed.

Lemma upload_ticks_frame (i : nat) (rs : list Q) (st : Upload.state) :
  selectedFiles (upload_ticks i rs st) = selectedFiles st
  /\ Upload.requests (upload_ticks i rs st) = Upload.requests st.
Proof.
  unfold upload_ticks. revert st.
  induction rs as [|r rs IH]; intros st; cbn [fold_left]; [easy|].
  destruct (IH (Upload.tick i r st)) as [-> ->]. apply upload_tick_frame.
Qed.

Lemma upload_on_error_effect (i : nat) (why : string) (st : Upload.state) :
  Upload.notifications (Upload.on_error i why st)
  = Upload.notifications st ++ [("Upload failed: " +:+ why, Error)]
  /\ Upload.scheduled (Upload.on_error i why st) = Upload.scheduled st
  /\ uploadProgress_hidden (Upload.on_error i why st) = true
  /\ uploadBtn_disabled (Upload.on_error i why st) = false
  /\ selectedFiles (Upload.on_error i why st) = selectedFiles st
  /\ Upload.requests (Upload.on_error i why st) = Upload.requests st
  /\ progressText (Upload.on_error i why st) = progressText st.
Proof.
  unfold Upload.on_error, Upload.clearInterval.
  destruct (Upload.timers st !! i); cbn; easy.
Qed.

(** However the upload request settles - the transport fails, the body
    does not parse, parses to [null] or parses to any other value -
    exactly one notification is shown.  On a response whose body parses
    and declares [success], whatever its HTTP status, it is the success
    notification, the redirect the server named is scheduled after 1000
    time units, the progress text reads [Processing complete!], and the
    progress container and the button are left as they were (the button
    is disabled then only if nothing enabled it since the upload
    began).  On every other outcome it is an error notification
    carrying the transport's message, the parser's message, the message
    of the [TypeError] raised on a [null] body, or the server's message
    (failing that, [Upload failed]); no redirect is scheduled, the
    progress text is kept, the progress is hidden and the button is
    enabled.  The selection is kept either way. *)
Theorem upload_outcome (i : nat) (o : outcome) (st : Upload.state) :
  selectedFiles (Upload.settle i o st) = selectedFiles st
  /\ match upload_succeeds o with
     | Some data =>
         Upload.notifications (Upload.settle i o st)
         = Upload.notifications st ++ [("Files uploaded successfully!", Success)]
         /\ Upload.scheduled (Upload.settle i o st)
            = Upload.scheduled st ++ [(1000, redirect data)]
         /\ progressText (Upload.settle i o st) = "Processing complete!"
         /\ uploadProgress_hidden (Upload.settle i o st) = uploadProgress_hidden st
         /\ uploadBtn_disabled (Upload.settle i o st) = uploadBtn_disabled st
     | None =>
         Upload.notifications (Upload.settle i o st)
         = Upload.notifications st ++ [("Upload failed: " +:+ upload_failure o, Error)]
         /\ Upload.scheduled (Upload.settle i o st) = Upload.scheduled st
         /\ progressText (Upload.settle i o st) = progressText st
         /\ uploadProgress_hidden (Upload.settle i o st) = true
         /\ uploadBtn_disabled (Upload.settle i o st) = false
     end.
Proof.
  assert (Hclear : forall s : Upload.state,
             Upload.notifications (Upload.clearInterval i s) = Upload.notifications s
             /\ Upload.scheduled (Upload.clearInterval i s) = Upload.scheduled s
             /\ uploadProgress_hidden (Upload.clearInterval i s) = uploadProgress_hidden s
             /\ uploadBtn_disabled (Upload.clearInterval i s) = uploadBtn_disabled s
             /\ selectedFiles (Upload.clearInterval i s) = selectedFiles s
             /\ progressText (Upload.clearInterval i s) = progressText s).
  { intros s. unfold Upload.clearInterval. now destruct (_ !! _). }
  destruct (Hclear st) as (Hn & Hs & Hh & Hb & Hf & Ht).
  destruct o as [why|s txt [data|why|why]];
    cbn [upload_succeeds upload_failure Upload.settle].
  - destruct (upload_on_error_effect i why st) as (? & ? & ? & ? & ? & _ & ?). easy.
  - unfold Upload.on_data.
    destruct (decide (status data = Some "success")) as [Hok|Hno].
    + rewrite (bool_decide_eq_true_2 _ Hok). cbn. rewrite Hn, Hs, Hh, Hb, Hf. easy.
    + rewrite (bool_decide_eq_false_2 _ Hno).
      match goal with |- context [Upload.on_error i ?w ?s'] =>
        destruct (upload_on_error_effect i w s') as (-> & -> & -> & -> & -> & _ & ->) end.
      cbn. rewrite Hn, Hs, Hf, Ht. easy.
  - destruct (upload_on_error_effect i why st) as (? & ? & ? & ? & ? & _ & ?). easy.
  - unfold Upload.on_null.
    match goal with |- context [Upload.on_error i ?w ?s'] =>
      destruct (upload_on_error_effect i w s') as (-> & -> & -> & -> & -> & _ & ->) end.
    cbn. rewrite Hn, Hs, Hf, Ht. easy.
Qed.

(** A body that is [null]: both chains force the bar to 100 and then
    report the [TypeError] as the failure. *)
Lemma null_body_is_a_failure :
  let why := "Cannot read properties of null (reading 'status')" in
  let sent := Upload.settle 0 (Response 200 "OK" (Null why)) uploading in
  let generated := Configure.settle 0 (Response 200 "OK" (Null why)) (handleSubmit short_5_4) in
  Upload.notifications sent = [("Upload failed: " +:+ why, Error)]
  /\ Qeq (Upload.progressBar sent) 100
  /\ uploadProgress_hidden sent = true
  /\ uploadBtn_disabled sent = false
  /\ Configure.notifications generated = [("Generation failed: " +:+ why, Error)]
  /\ generateProgress generated = Some 100%Q
  /\ loading generated = Some "none".
Proof. vm_compute. repeat split; reflexivity. Qed.

Lemma upload_settle_frame (i : nat) (o : outcome) (st : Upload.state) :
  selectedFiles (Upload.settle i o st) = selectedFiles st
  /\ Upload.requests (Upload.settle i o st) = Upload.requests st.
Proof.
  assert (Hclear : forall s : Upload.state,
             selectedFiles (Upload.clearInterval i s) = selectedFiles s
             /\ Upload.requests (Upload.clearInterval i s) = Upload.requests s).
  { intros s. unfold Upload.clearInterval. now destruct (_ !! _). }
  destruct (Hclear st) as [Hf Hr].
  destruct o as [why|s txt [data|why|why]]; cbn [Upload.settle].
  - destruct (upload_on_error_effect i why st) as (_ & _ & _ & _ & ? & ? & _). easy.
  - unfold Upload.on_data. destruct (decide _).
    + cbn. easy.
    + match goal with |- context [Upload.on_error i ?w ?s'] =>
        destruct (upload_on_error_effect i w s') as (_ & _ & _ & _ & -> & -> & _) end.
      cbn. easy.
  - destruct (upload_on_error_effect i why st) as (_ & _ & _ & _ & ? & ? & _). easy.
  - unfold Upload.on_null.
    match goal with |- context [Upload.on_error i ?w ?s'] =>
      destruct (upload_on_error_effect i w s') as (_ & _ & _ & _ & -> & -> & _) end.
    cbn. easy.
Qed.

Lemma uploadFiles_sends (st : Upload.state) :
  selectedFiles st <> [] ->
  Upload.requests (uploadFiles st) = Upload.requests st ++ [upload_request st]
  /\ selectedFiles (uploadFiles st) = selectedFiles st
  /\ uploadBtn_disabled (uploadFiles st) = true
  /\ uploadProgress_hidden (uploadFiles st) = false.
Proof.
  intros H. unfold uploadFiles, upload_request.
  destruct (selectedFiles st) eqn:E; [congruence|]. cbn. now rewrite E.
Qed.

(** After an upload that failed, in whatever way and after however many
    ticks, the button is enabled again and the selection is still
    there: pressing upload again sends the same files, one part per
    file, in order, under the key [files]. *)
Theorem failed_upload_can_be_retried (st : Upload.state) (i : nat) (rs : list Q)
    (o : outcome) :
  selectedFiles st <> [] ->
  upload_succeeds o = None ->
  let failed := Upload.settle i o (upload_ticks i rs (uploadFiles st)) in
  uploadBtn_disabled failed = false
  /\ selectedFiles failed = selectedFiles st
  /\ Upload.requests (uploadFiles failed)
     = Upload.requests st ++ [upload_request st; upload_request st].
Proof.
  intros Hsel Hfail. cbn zeta.
  destruct (uploadFiles_sends st Hsel) as (Hreq & Hfiles & _ & _).
  destruct (upload_ticks_frame i rs (uploadFiles st)) as [Hf1 Hr1].
  destruct (upload_settle_frame i o (upload_ticks i rs (uploadFiles st))) as [Hf2 Hr2].
  assert (Hkept : selectedFiles (Upload.settle i o (upload_ticks i rs (uploadFiles st)))
                  = selectedFiles st) by congruence.
  split.
  - pose proof (upload_outcome i o (upload_ticks i rs (uploadFiles st))) as [_ H].
    rewrite Hfail in H. tauto.
  - split; [exact Hkept|].
    destruct (uploadFiles_sends _ (eq_ind_r (fun l => l <> []) Hsel Hkept)) as (-> & _).
    unfold upload_request at 1. rewrite Hkept, Hr2, Hr1, Hreq, <- app_assoc. reflexivity.
Qed.

Lemma failed_upload_can_be_retried_witness :
  uploadBtn_disabled
    (Upload.settle 0 (Rejected "Failed to fetch")
       (upload_ticks 0 [1 # 2]
          (uploadFiles (handleFiles [notes_pdf; scan_png] upload_page)))) = false.
Proof.
  refine (proj1 (failed_upload_can_be_retried
                   (handleFiles [notes_pdf; scan_png] upload_page) 0 [1 # 2]
                   (Rejected "Failed to fetch") _ _)); [discriminate|reflexivity].
Defined.

(** Disabling the button is the only guard against a second upload, and
    [removeFile] undoes it: with two or more files selected, a removal
    while the request is outstanding leaves the button enabled and the
    timer running, and a further [uploadFiles] sends a second request
    with the files that are left. *)
Theorem removal_during_upload_reenables_button (st : Upload.state) (index : Z) :
  (2 <= length (selectedFiles st))%nat ->
  let during := removeFile index (uploadFiles st) in
  uploadBtn_disabled during = false
  /\ Upload.timers during !! length (Upload.timers st)
     = Some {| progress := 0%Q; running := true |}
  /\ Upload.requests (uploadFiles during)
     = Upload.requests st ++ [upload_request st; upload_request during].
Proof.
  intros Hlen. cbn zeta.
  assert (Hsel : selectedFiles st <> []) by (destruct (selectedFiles st); [cbn in Hlen; lia|easy]).
  destruct (uploadFiles_sends st Hsel) as (Hreq & Hfiles & _ & _).
  assert (Hleft : selectedFiles (removeFile index (uploadFiles st)) <> []).
  { unfold removeFile. cbn [selectedFiles updateUploadButton updateFilePreview
      set_uploadBtn_disabled set_filePreview set_selectedFiles].
    rewrite Hfiles. pose proof (splice_length index (selectedFiles st)) as Hs.
    destruct (splice index 1 (selectedFiles st)); [cbn in Hs; lia|easy]. }
  split; [|split].
  - unfold removeFile, updateUploadButton in *. cbn in *.
    destruct (splice index 1 (selectedFiles (uploadFiles st))); [congruence|reflexivity].
  - unfold removeFile. cbn. rewrite uploadFiles_timers by exact Hsel.
    apply list_lookup_middle. reflexivity.
  - destruct (uploadFiles_sends _ Hleft) as (-> & _).
    unfold removeFile at 1. cbn. rewrite Hreq, <- app_assoc. reflexivity.
Qed.

Lemma removal_during_upload_reenables_button_witness :
  uploadBtn_disabled
    (removeFile 0 (uploadFiles (handleFiles [notes_pdf; scan_png] upload_page))) = false.
Proof.
  refine (proj1 (removal_during_upload_reenables_button
                   (handleFiles [notes_pdf; scan_png] upload_page) 0 _)).
  vm_compute. lia.
Defined.

End UploadMore.

(** * Further invariants of a configuration session *)

Section Sessions.



(** What the page holds once it has loaded: with the container, the one
    default set (id 0, short answer, 5 marks, count 1) and a running
    total of 5; without it, no set and a total of 0, and no action can
    ever bring a set into the list. *)
Theorem page_load (p : state) :
  (questionSetsContainer p = true ->
   questionSets (init p) = [{| id := 0; type := short; marks := Num 5; count := Num 1 |}]
   /\ totalMarks (init p) = Num 5)
  /\ (questionSetsContainer p = false ->
      questionSets (init p) = [] /\ totalMarks (init p) = Num 0
      /\ forall acts : list action, questionSets (run acts (init p)) = []).
Proof.
  split; intros Hc.
  - assert (Hsets : questionSets (init p)
                    = [{| id := 0; type := short; marks := Num 5; count := Num 1 |}]).
    { unfold init. rewrite addQuestionSet_sets by exact Hc. reflexivity. }
    split; [exact Hsets|]. rewrite (init_in_step p), Hsets. reflexivity.
  - assert (Hinit : init p = loaded p).
    { unfold init, addQuestionSet. cbn. now rewrite Hc. }
    rewrite Hinit. split; [reflexivity|]. split; [reflexivity|].
    intros acts.
    assert (H : questionSets (loaded p) = [] /\ questionSetsContainer (loaded p) = false)
      by (split; [reflexivity|exact Hc]).
    revert H. generalize (loaded p).
    induction acts as [|a acts IH]; intros st [Hsets Hcont]; cbn; [exact Hsets|].
    apply IH. split; [|now rewrite container_kept].
    destruct a as [|i q|i|v|]; cbn [step].
    + unfold addQuestionSet. now rewrite Hcont.
    + rewrite updateQuestionSet_sets, Hsets. unfold at_index.
      now destruct (i <? 0).
    + rewrite removeQuestionSet_sets, Hsets. reflexivity.
    + now destruct (updateMarksValidation_model (set_total_marks v st)) as [-> _].
    + now destruct (handleSubmit_model st) as [-> _].
Qed.

Lemma page_load_witness :
  questionSets (init sample_page)
  = [{| id := 0; type := short; marks := Num 5; count := Num 1 |}].
Proof. exact (proj1 (proj1 (page_load sample_page) eq_refl)). Defined.

End Sessions.

Section ProgressInvariant.
Local Open Scope Q_scope.

Lemma progress_in_range_frame (st st' : state) :
  Configure.timers st' = Configure.timers st ->
  generateProgress st' = generateProgress st ->
  progress_in_range st -> progress_in_range st'.
Proof. unfold progress_in_range. now intros -> ->. Qed.

Lemma updateMarksValidation_bars (st : state) :
  Configure.timers (updateMarksValidation st) = Configure.timers st
  /\ generateProgress (updateMarksValidation st) = generateProgress st.
Proof.
  unfold updateMarksValidation.
  destruct (totalMarksDisplay st); [|easy]. now destruct (within_tolerance _ _).
Qed.

Lemma updateTotalMarks_bars (st : state) :
  Configure.timers (updateTotalMarks st) = Configure.timers st
  /\ generateProgress (updateTotalMarks st) = generateProgress st.
Proof.
  unfold updateTotalMarks.
  match goal with |- context [updateMarksValidation ?s] =>
    destruct (updateMarksValidation_bars s) as [-> ->] end.
  cbn [totalMarksDisplay set_totalMarks]. now destruct (totalMarksDisplay st).
Qed.

Lemma step_progress_in_range (a : action) (st : state) :
  progress_in_range st -> progress_in_range (step a st).
Proof.
  intros H. destruct a as [|i p|i|v|]; cbn [step].
  - unfold addQuestionSet. destruct (negb _); [exact H|].
    match goal with |- context [updateTotalMarks ?s] =>
      destruct (updateTotalMarks_bars s) as [Ht Hb] end.
    eapply progress_in_range_frame; [exact Ht|exact Hb|exact H].
  - unfold updateQuestionSet. destruct (at_index _ _); [|exact H].
    match goal with |- context [updateTotalMarks ?s] =>
      destruct (updateTotalMarks_bars s) as [Ht Hb] end.
    eapply progress_in_range_frame; [exact Ht|exact Hb|exact H].
  - unfold removeQuestionSet. destruct (_ <=? _)%nat; [exact H|].
    match goal with |- context [updateTotalMarks ?s] =>
      destruct (updateTotalMarks_bars s) as [Ht Hb] end.
    eapply progress_in_range_frame; [exact Ht|exact Hb|exact H].
  - destruct (updateMarksValidation_bars (set_total_marks v st)) as [Ht Hb].
    eapply progress_in_range_frame; [exact Ht|exact Hb|exact H].
  - unfold handleSubmit.
    destruct (session_id st) as [[|c sid]|]; try exact H.
    destruct (_ =? _)%nat; [exact H|].
    destruct (exceeds_tolerance _ _); [exact H|].
    destruct H as [Ht Hb]. split.
    + destruct (loading st); cbn; (apply Forall_app; split; [exact Ht|]);
        repeat constructor; cbn; unfold Qle; cbn; lia.
    + destruct (loading st); exact Hb.
Qed.

Lemma clearInterval_progress_in_range (i : nat) (st : state) :
  progress_in_range st -> progress_in_range (Configure.clearInterval i st).
Proof.
  intros [Ht Hb]. unfold Configure.clearInterval.
  destruct (Configure.timers st !! i) as [t|] eqn:Hi; [|now split].
  split; [|exact Hb]. cbn. apply Forall_insert; [exact Ht|].
  cbn. exact (Forall_lookup_1 _ _ _ _ Ht Hi).
Qed.

Lemma on_error_progress_in_range (i : nat) (why : string) (st : state) :
  progress_in_range st -> progress_in_range (Configure.on_error i why st).
Proof.
  intros H. apply (clearInterval_progress_in_range i) in H.
  unfold Configure.on_error.
  destruct (loading _); exact H.
Qed.

Lemma settle_progress_in_range (i : nat) (o : outcome) (st : state) :
  progress_in_range st -> progress_in_range (Configure.settle i o st).
Proof.
  intros H. destruct o as [why|s txt b]; cbn [Configure.settle];
    [now apply on_error_progress_in_range|].
  destruct (negb (ok s)); [now apply on_error_progress_in_range|].
  assert (H' : progress_in_range
                 (match generateProgress (Configure.clearInterval i st) with
                  | Some _ => set_generateProgress (Some 100) (Configure.clearInterval i st)
                  | None => Configure.clearInterval i st
                  end)).
  { apply (clearInterval_progress_in_range i) in H.
    destruct (generateProgress (Configure.clearInterval i st)) eqn:E; [|exact H].
    destruct H as [Ht _]. split; [exact Ht|]. cbn. unfold Qle; cbn; lia. }
  destruct b as [data|why|why].
  - unfold Configure.on_data.
    destruct (decide _); [exact H'|now apply on_error_progress_in_range].
  - now apply on_error_progress_in_range.
  - unfold Configure.on_null. now apply on_error_progress_in_range.
Qed.

Lemma tick_progress_in_range (i : nat) (r : Q) (st : state) :
  random_value r -> progress_in_range st -> progress_in_range (Configure.tick i r st).
Proof.
  intros Hr [Ht Hb]. unfold Configure.tick.
  destruct (Configure.timers st !! i) as [t|] eqn:Hi; [|now split].
  destruct (running t); [|now split].
  destruct (Forall_lookup_1 _ _ _ _ Ht Hi) as [Hlow Hhigh].
  assert (H10 : 0 <= 10) by (unfold Qle; cbn; lia).
  destruct (advance_bounds 10 80 r (progress t) H10 Hr Hhigh) as (Hup & Hceil & _).
  assert (Hrange : 0 <= advance 10 80 r (progress t) /\ advance 10 80 r (progress t) <= 80).
  { split; [apply Qle_trans with (progress t); assumption|exact Hceil]. }
  cbn [generateProgress set_timers].
  destruct (generateProgress st) eqn:E; split; cbn; rewrite ?E;
    try (apply Forall_insert; [exact Ht|exact Hrange]); try exact I.
  destruct Hrange as [H0 H80]. split; [exact H0|].
  eapply Qle_trans; [exact H80|]. unfold Qle; cbn; lia.
Qed.

(** Whatever the user does and in whatever order intervals fire and
    requests settle, with any number of submissions outstanding, no
    closure of the generation simulation ever holds a progress outside
    0..80, and the bar never shows a width outside 0..100. *)
Theorem generation_progress_stays_in_range (st : state) (es : list event) :
  progress_in_range st ->
  Forall fires_randomly es ->
  progress_in_range (fold_left event_step es st).
Proof.
  intros Hst Hes. revert st Hst.
  induction Hes as [|e es He _ IH]; intros st Hst; cbn; [exact Hst|].
  apply IH. destruct e as [a|[i r|i o]]; cbn.
  - now apply step_progress_in_range.
  - now apply tick_progress_in_range.
  - now apply settle_progress_in_range.
Qed.

Lemma generation_progress_stays_in_range_witness :
  progress_in_range
    (fold_left event_step
       [User Submit; Async (Fire 0 (9 # 10)); User Submit; Async (Fire 1 (1 # 2));
        Async (Settled 0 (Rejected "Failed to fetch")); Async (Fire 0 (1 # 2))]
       short_5_4).
Proof.
  apply generation_progress_stays_in_range.
  - split; [constructor|]. vm_compute. split; discriminate.
  - repeat constructor; cbn; unfold Qle, Qlt; cbn; lia.
Defined.

End ProgressInvariant.

Section UploadProgressInvariant.
Import Upload.
Local Open Scope Q_scope.

Lemma upload_clearInterval_in_range (i : nat) (st : Upload.state) :
  upload_progress_in_range st -> upload_progress_in_range (Upload.clearInterval i st).
Proof.
  intros [Ht Hb]. unfold Upload.clearInterval.
  destruct (Upload.timers st !! i) as [t|] eqn:Hi; [|now split].
  split; [|exact Hb]. cbn. apply Forall_insert; [exact Ht|].
  cbn. exact (Forall_lookup_1 _ _ _ _ Ht Hi).
Qed.

Lemma upload_on_error_in_range (i : nat) (why : string) (st : Upload.state) :
  upload_progress_in_range st -> upload_progress_in_range (Upload.on_error i why st).
Proof.
  intros H. apply (upload_clearInterval_in_range i) in H. exact H.
Qed.

Lemma upload_event_in_range (e : upload_event) (st : Upload.state) :
  upload_fires_randomly e ->
  upload_progress_in_range st -> upload_progress_in_range (upload_event_step st e).
Proof.
  intros He H. destruct e as [files|index| |i r|i o]; cbn [upload_event_step].
  - exact H.
  - exact H.
  - unfold uploadFiles. destruct (_ =? _)%nat; [exact H|].
    destruct H as [Ht Hb]. split; [|exact Hb]. cbn.
    apply Forall_app. split; [exact Ht|].
    repeat constructor; cbn; unfold Qle; cbn; lia.
  - destruct H as [Ht Hb]. unfold Upload.tick.
    destruct (Upload.timers st !! i) as [t|] eqn:Hi; [|now split].
    destruct (running t); [|now split].
    destruct (Forall_lookup_1 _ _ _ _ Ht Hi) as [Hlow Hhigh].
    assert (H15 : 0 <= 15) by (unfold Qle; cbn; lia).
    destruct (advance_bounds 15 90 r (progress t) H15 He Hhigh) as (Hup & Hceil & _).
    assert (H0 : 0 <= advance 15 90 r (progress t))
      by (apply Qle_trans with (progress t); assumption).
    split; cbn.
    + apply Forall_insert; [exact Ht|]. now split.
    + split; [exact H0|]. eapply Qle_trans; [exact Hceil|]. unfold Qle; cbn; lia.
  - assert (H' : upload_progress_in_range (set_progressBar 100 (Upload.clearInterval i st))).
    { apply (upload_clearInterval_in_range i) in H.
      destruct H as [Ht _]. split; [exact Ht|]. cbn. unfold Qle; cbn; lia. }
    destruct o as [why|s txt [data|why|why]]; cbn [Upload.settle];
      try (now apply upload_on_error_in_range).
    unfold Upload.on_data.
    destruct (decide _); [exact H'|now apply upload_on_error_in_range].
Qed.

(** Whatever is picked, removed or uploaded and in whatever order
    intervals fire and requests settle, no closure of the upload
    simulation ever holds a progress outside 0..90, and the bar never
    shows a width outside 0..100. *)
Theorem upload_progress_stays_in_range (st : Upload.state) (es : list upload_event) :
  upload_progress_in_range st ->
  Forall upload_fires_randomly es ->
  upload_progress_in_range (fold_left upload_event_step es st).
Proof.
  intros Hst Hes. revert st Hst.
  induction Hes as [|e es He _ IH]; intros st Hst; cbn; [exact Hst|].
  apply IH. now apply upload_event_in_range.
Qed.

Lemma upload_progress_stays_in_range_witness :
  upload_progress_in_range
    (fold_left upload_event_step
       [Pick [notes_pdf; scan_png]; ClickUpload; UploadFire 0 (9 # 10); RemoveAt 0;
        ClickUpload; UploadFire 1 (1 # 2); UploadSettled 0 (Rejected "Failed to fetch")]
       upload_page).
Proof.
  apply upload_progress_stays_in_range.
  - split; [constructor|]. vm_compute. split; discriminate.
  - repeat constructor; cbn; unfold Qle, Qlt; cbn; lia.
Defined.

End UploadProgressInvariant.
